(** * pyMPB [kspace.py]: k-point paths and their rendering for MPB ctl files

    A shallow embedding of [kspace.py].  Python values are a small tagged
    universe, Python floats are IEEE binary64 numbers (Rocq's primitive
    floats), list objects that a caller and a [KSpace] object may share live
    in a store addressed by location, and the statements of a method are
    sequenced in a monad that threads the store and the warning log and can
    raise. *)

From Stdlib Require Import ZArith Floats.
From stdpp Require Import strings list pretty gmap.

Local Set Warnings "-register-all".

(** ** Python values *)

(** The values a point or one of its components can be: numbers, symbolic
    strings such as ['(/ 3)'], and tuples or lists of them, as the
    docstring of [KSpace.__init__] describes the argument; [None] and the
    booleans stand for the values that have no length. *)
Inductive pyval : Type :=
  | PNone
  | PBool (b : bool)
  | PInt (z : Z)
  | PFloat (f : float)
  | PStr (s : string)
  | PTuple (l : list pyval)
  | PList (l : list pyval).

(** The exceptions the modelled builtins raise.  [BadRef] is the use of a
    location that holds no object; a Python reference always designates an
    object, so no execution reaches it from a valid reference. *)
Inductive exn : Type := TypeError | IndexError | ValueError | BadRef.

Global Instance exn_eq_dec : EqDecision exn.
Proof. solve_decision. Defined.

Inductive outcome (A : Type) : Type :=
  | Ok (a : A)
  | Raise (e : exn).
Arguments Ok {A} a.
Arguments Raise {A} e.

(** ** The store and the warning log *)

(** A location is the index of a list object in the store, in allocation
    order.  The objects kept there are lists of label strings: the
    [point_labels] argument, the list stored in the object and the copies
    handed out by [labels()]. *)
Definition loc : Type := nat.

Record world : Type := World {
  heap : list (list string);
  warnings : list string
}.

Definition M (A : Type) : Type := world -> outcome A * world.

Global Instance M_ret : MRet M := fun A a w => (Ok a, w).

Global Instance M_bind : MBind M := fun A B f m w =>
  match m w with
  | (Ok a, w') => f a w'
  | (Raise e, w') => (Raise e, w')
  end.

Definition raise {A : Type} (e : exn) : M A := fun w => (Raise e, w).

(** [try: body / except e: handler]. *)
Definition try_except {A : Type} (body : M A) (e : exn) (handler : M A) : M A :=
  fun w =>
    match body w with
    | (Raise e', w') => if decide (e' = e) then handler w' else (Raise e', w')
    | r => r
    end.

(** [log.warning(msg)]: the message is appended to the log. *)
Definition log_warning (msg : string) : M unit :=
  fun w => (Ok tt, World (heap w) (warnings w ++ [msg])).

(** Reading the list object at a location. *)
Definition deref (l : loc) : M (list string) :=
  fun w =>
    match heap w !! l with
    | Some ls => (Ok ls, w)
    | None => (Raise BadRef, w)
    end.

(** [lst.extend(xs)]: the object at [l] is updated in place. *)
Definition extend (l : loc) (xs : list string) : M unit :=
  fun w =>
    match heap w !! l with
    | Some ls => (Ok tt, World (<[l := ls ++ xs]> (heap w)) (warnings w))
    | None => (Raise BadRef, w)
    end.

(** A new list object (a list display, a slice, [list()]). *)
Definition alloc (ls : list string) : M loc :=
  fun w => (Ok (length (heap w)), World (heap w ++ [ls]) (warnings w)).

(** ** Builtins used by [kspace.py] *)

Definition nl : string := String (Ascii.ascii_of_nat 10) "".

Definition one_char (c : Ascii.ascii) : pyval := PStr (String c "").

(** [len(v)] *)
Definition len (v : pyval) : M nat :=
  match v with
  | PStr s => mret (String.length s)
  | PTuple l | PList l => mret (length l)
  | _ => raise TypeError
  end.

(** [hasattr(v, 'isalnum')]: among the modelled values only strings have it. *)
Definition hasattr_isalnum (v : pyval) : bool :=
  match v with
  | PStr _ => true
  | _ => false
  end.

(** [v[i]] for an index [i >= 0]. *)
Definition getitem (v : pyval) (i : nat) : M pyval :=
  match v with
  | PTuple l | PList l =>
      match l !! i with
      | Some x => mret x
      | None => raise IndexError
      end
  | PStr s =>
      match String.get i s with
      | Some c => mret (one_char c)
      | None => raise IndexError
      end
  | _ => raise TypeError
  end.

(** [v[lo:hi]] for bounds [0 <= lo <= hi]. *)
Definition getslice (v : pyval) (lo hi : nat) : M pyval :=
  match v with
  | PTuple l => mret (PTuple (take (hi - lo) (drop lo l)))
  | PList l => mret (PList (take (hi - lo) (drop lo l)))
  | PStr s => mret (PStr (String.substring lo (hi - lo) s))
  | _ => raise TypeError
  end.

(** [tuple(v)] *)
Definition tuple (v : pyval) : M pyval :=
  match v with
  | PTuple l | PList l => mret (PTuple l)
  | PStr s => mret (PTuple (one_char <$> String.list_ascii_of_string s))
  | _ => raise TypeError
  end.

(** Truth value of an object, as tested by [if], [and] and [not]. *)
Definition truthy (v : pyval) : bool :=
  match v with
  | PNone => false
  | PBool b => b
  | PInt z => negb (z =? 0)%Z
  | PFloat f => negb (f =? 0)%float
  | PStr s => negb (String.length s =? 0)
  | PTuple l | PList l => negb (length l =? 0)
  end.

(** What the interpreter's [str()] gives for floats and for containers
    depends on its version; both are left to the runtime. *)
Class Runtime : Type := {
  float_str : float -> string;
  repr : pyval -> string
}.

(** The module [defaults], which is not part of this file's sources: the
    four attributes [kspace.py] reads. *)
Class Defaults : Type := {
  default_k_interpolation : Z;
  k_interpolation_function : string;
  k_uniform_interpolation_function : string;
  newmpb : bool
}.

(** [str(v)], as applied by the [%s] conversion. *)
Definition py_str `{Runtime} (v : pyval) : string :=
  match v with
  | PNone => "None"
  | PBool true => "True"
  | PBool false => "False"
  | PInt z => pretty z
  | PFloat f => float_str f
  | PStr s => s
  | PTuple _ | PList _ => repr v
  end.

(** ** [class KSpace] *)

Definition truncation_warning : string :=
  "KSpace: a point has been supplied with length > 3. " +:+
  "I will only use the first 3 entries.".

Definition fallback_warning : string :=
  "Requested kinterpolate_uniform function in KSpace, " +:+
  "but this is only available starting from MPB v.1.5. " +:+
  "Will fall back to simple interpolate function.".

(** The instance attributes.  [extra] holds the entries of [**kwargs], which
    [__init__] merges into the instance dictionary; Python binds the four
    named parameters before [kwargs], so none of its keys is one of the four
    attribute names above it. *)
Record KSpace : Type := {
  k_interpolation : Z;
  use_uniform_interpolation : bool;
  points_list : list pyval;
  point_labels : loc;
  extra : gmap string pyval
}.

(** [__init__], lines 64-73: the length the item is treated as having. *)
Definition effective_length (item : pyval) : M nat :=
  try_except
    (length ← len item;
     if hasattr_isalnum item then mret 0 else mret length)
    TypeError
    (mret 0).

(** [__init__], lines 64-86: the body of the loop over [points_list]; it
    returns the tuple appended to [three_list]. *)
Definition three_tuple (item : pyval) : M pyval :=
  length ← effective_length item;
  match length with
  | 0 => mret (PTuple [item; PInt 0; PInt 0])
  | 1 => x ← getitem item 0; mret (PTuple [x; PInt 0; PInt 0])
  | 2 => x ← getitem item 0; y ← getitem item 1; mret (PTuple [x; y; PInt 0])
  | 3 => tuple item
  | _ =>
      s ← getslice item 0 3;
      t ← tuple s;
      _ ← log_warning truncation_warning;
      mret t
  end.

(** [__init__], lines 62-86: [three_list] grows by one tuple per item. *)
Fixpoint build_three_list (points_list three_list : list pyval) : M (list pyval) :=
  match points_list with
  | [] => mret three_list
  | item :: rest =>
      t ← three_tuple item;
      build_three_list rest (three_list ++ [t])
  end.

(** [__init__], lines 88-94: the argument is extended in place when it is
    non-empty and too short, then a slice of it, a new list object, becomes
    the local [point_labels]. *)
Definition reconcile_labels (point_labels : loc) (n : nat) : M loc :=
  ls ← deref point_labels;
  let pllen := length ls in
  _ ← (if negb (pllen =? 0) && (pllen <? n)
       then extend point_labels (replicate (n - pllen) "")
       else mret tt);
  ls' ← deref point_labels;
  alloc (take n ls').

Section KSpace.
Context `{Defaults} `{Runtime}.

(** [KSpace.__init__(self, points_list, k_interpolation,
    use_uniform_interpolation, point_labels, **kwargs)].  Every argument
    is explicit here: a call that leaves one out passes
    [default_k_interpolation], [false], the shared default list (see
    [point_labels_default] below) and the empty dictionary.  The attribute
    [use_uniform_interpolation] is assigned the argument and then, on the
    fallback, [False]; [uniform] is the value it ends with. *)
Definition KSpace_init (points_list : list pyval) (k_interpolation : Z)
    (use_uniform_interpolation : bool) (point_labels : loc)
    (kwargs : gmap string pyval) : M KSpace :=
  three_list ← build_three_list points_list [];
  point_labels ← reconcile_labels point_labels (length three_list);
  uniform ← (if use_uniform_interpolation && negb newmpb
             then _ ← log_warning fallback_warning; mret false
             else mret use_uniform_interpolation);
  mret {| k_interpolation := k_interpolation;
          use_uniform_interpolation := uniform;
          points_list := three_list;
          point_labels := point_labels;
          extra := kwargs |}.

(** [points()] *)
Definition points (self : KSpace) : list pyval := points_list self.

(** [count_interpolated()] *)
Definition count_interpolated (self : KSpace) : Z :=
  ((Z.of_nat (length (points self)) - 1) * (k_interpolation self + 1) + 1)%Z.

(** [has_labels()]: [a and b] is [a] when [a] is false, here the integer
    0, and [b] otherwise. *)
Definition has_labels (self : KSpace) : M pyval :=
  ls ← deref (point_labels self);
  let n := PInt (Z.of_nat (length ls)) in
  if truthy n
  then mret (PBool (bool_decide (length (points self) = length ls)))
  else mret n.

(** [labels()] *)
Definition labels (self : KSpace) : M loc :=
  b ← has_labels self;
  if truthy b
  then ls ← deref (point_labels self); alloc ls
  else alloc [].

Definition vector3 (x y z : pyval) : string :=
  "    (vector3 " +:+ py_str x +:+ " " +:+ py_str y +:+ " " +:+ py_str z +:+
  ")" +:+ nl.

Definition vector3_commented (x y z : pyval) (c : string) : string :=
  "    (vector3 " +:+ py_str x +:+ " " +:+ py_str y +:+ " " +:+ py_str z +:+
  ")" +:+ c +:+ nl.

(** [for x, y, z in ...]: the item must have exactly three elements. *)
Definition unpack3 (v : pyval) : M (pyval * pyval * pyval) :=
  t ← tuple v;
  match t with
  | PTuple [x; y; z] => mret (x, y, z)
  | _ => raise ValueError
  end.

(** [comments[i]] *)
Definition comment_at (comments : list string) (i : nat) : M string :=
  match comments !! i with
  | Some c => mret c
  | None => raise IndexError
  end.

(** The generator of the labelled branch, joined: one line per point,
    with its position [i] counted by [enumerate]. *)
Fixpoint commented_lines (comments : list string) (i : nat) (pts : list pyval)
    : M string :=
  match pts with
  | [] => mret ""
  | xyz :: rest =>
      x ← getitem xyz 0;
      y ← getitem xyz 1;
      z ← getitem xyz 2;
      c ← comment_at comments i;
      s ← commented_lines comments (S i) rest;
      mret (vector3_commented x y z c +:+ s)
  end.

(** The generator of the unlabelled branch, joined. *)
Fixpoint plain_lines (pts : list pyval) : M string :=
  match pts with
  | [] => mret ""
  | p :: rest =>
      '(x, y, z) ← unpack3 p;
      s ← plain_lines rest;
      mret (vector3 x y z +:+ s)
  end.

(** [__str__()] *)
Definition KSpace_str (self : KSpace) : M string :=
  ls ← deref (point_labels self);
  vectors ←
    (if negb (length ls =? 0)
     then
       let comments :=
         (fun pl => if negb (String.length pl =? 0) then "  ;" +:+ pl else pl) <$> ls in
       commented_lines comments 0 (points self)
     else plain_lines (points self));
  let interpol_func :=
    if use_uniform_interpolation self
    then k_uniform_interpolation_function
    else k_interpolation_function in
  if negb (k_interpolation self =? 0)%Z
  then mret ("(" +:+ interpol_func +:+ " " +:+ pretty (k_interpolation self) +:+
             " (list" +:+ nl +:+ vectors +:+ "))")
  else mret ("(list" +:+ nl +:+ vectors +:+ ")").

End KSpace.

(** ** [numpy.linspace] *)

(** The float of a sample index, as [arange(0, num)] holds it (through a
    63-bit integer, which every length of a list in memory fits). *)
Definition float_of_nat (n : nat) : float :=
  PrimFloat.of_uint63 (Uint63.of_Z (Z.of_nat n)).

(** [numpy.linspace(start, stop, num)] with its default [endpoint=True], as
    numpy computes it in binary64: the indices [0 .. num-1] are scaled by
    the step and shifted by [start], and the last sample is then set to
    [stop].  numpy is a library the module imports, not part of its
    sources; it rejects a negative [num], so the count is a natural
    number here. *)
Definition linspace (start stop : float) (num : nat) : list float :=
  let div := num - 1 in
  let y := float_of_nat <$> seq 0 num in
  let delta := (stop - start)%float in
  let y :=
    if 1 <? num
    then
      let step := (delta / float_of_nat div)%float in
      if (step =? 0)%float
      then (fun v => (v / float_of_nat div * delta)%float) <$> y
      else (fun v => (v * step)%float) <$> y
    else (fun v => (v * delta)%float) <$> y in
  let y := (fun v => (v + start)%float) <$> y in
  if 1 <? num then <[num - 1 := stop]> y else y.

(** The exponent that binary64 gives a number of magnitude [2 ^ e]: 53
    bits of mantissa, and no exponent under -1074. *)
Definition fexp64 (e : Z) : Z := Z.max (e - 53) (-1074).

(** ** The preset classes *)

(** The default value of the parameter [point_labels]: the one list object
    that [list()] creates when the [def] statement of [__init__] is
    executed, the first object of the store. *)
Definition point_labels_default : loc := 0.

(** The world once the module has been imported. *)
Definition initial_world : world := World [[]] [].

Section Presets.
Context `{Defaults}.

(** [KSpaceTriangular.__init__(self, k_interpolation,
    use_uniform_interpolation)]; the list display passed as
    [point_labels] is a new list object. *)
Definition KSpaceTriangular_init (k_interpolation : Z)
    (use_uniform_interpolation : bool) : M KSpace :=
  point_labels ← alloc ["Gamma"; "M"; "K"; "Gamma"];
  KSpace_init
    [PTuple [PInt 0; PInt 0; PInt 0];
     PTuple [PInt 0; PFloat 0.5; PInt 0];
     PTuple [PStr "(/ -3)"; PStr "(/ 3)"; PInt 0];
     PTuple [PInt 0; PInt 0; PInt 0]]
    k_interpolation use_uniform_interpolation point_labels ∅.

(** [KSpaceRectangular.__init__(self, k_interpolation,
    use_uniform_interpolation)] *)
Definition KSpaceRectangular_init (k_interpolation : Z)
    (use_uniform_interpolation : bool) : M KSpace :=
  point_labels ← alloc ["Gamma"; "X"; "M"; "Gamma"];
  KSpace_init
    [PTuple [PInt 0; PInt 0; PInt 0];
     PTuple [PFloat 0.5; PInt 0; PInt 0];
     PTuple [PFloat 0.5; PFloat 0.5; PInt 0];
     PTuple [PInt 0; PInt 0; PInt 0]]
    k_interpolation use_uniform_interpolation point_labels ∅.

(** [KSpaceRectangularGrid.__init__(self, x_steps, y_steps)]; the
    comprehension runs over the [y] samples and, for each, over the [x]
    samples. *)
Definition KSpaceRectangularGrid_init (x_steps y_steps : nat) : M KSpace :=
  let grid :=
    y ← linspace (-0.5) 0.5 y_steps;
    x ← linspace (-0.5) 0.5 x_steps;
    [PTuple [PFloat x; PFloat y; PFloat 0]] in
  KSpace_init grid 0 false point_labels_default
    (<["x_steps" := PInt (Z.of_nat x_steps)]>
       (<["y_steps" := PInt (Z.of_nat y_steps)]> ∅)).

End Presets.

(** * Definitions for the statements *)

(** ** Normalisation of the points *)

(** The elements of an item that is a sequence; a string is a single item,
    and so is every value without a length. *)
Definition sequence_items (item : pyval) : option (list pyval) :=
  match item with
  | PTuple l | PList l => Some l
  | _ => None
  end.

(** The rules of the specification, by the shape of the item: a sequence of
    one, two, three or more elements gives its first elements, zero-filled;
    anything else, a string included, is the first component itself. *)
Definition spec_normalize (item : pyval) : pyval :=
  match item with
  | PTuple [x] | PList [x] => PTuple [x; PInt 0; PInt 0]
  | PTuple [x; y] | PList [x; y] => PTuple [x; y; PInt 0]
  | PTuple (x :: y :: z :: _) | PList (x :: y :: z :: _) => PTuple [x; y; z]
  | _ => PTuple [item; PInt 0; PInt 0]
  end.

(** The items that are cut to three components. *)
Definition overlong (item : pyval) : bool :=
  match item with
  | PTuple l | PList l => 3 <? length l
  | _ => false
  end.

(** The warnings the loop over [points_list] logs: one per over-long item,
    in order. *)
Definition truncation_warnings (points_list : list pyval) : list string :=
  item ← points_list; if overlong item then [truncation_warning] else [].

(** A tuple of exactly three components. *)
Definition is_three_tuple (v : pyval) : bool :=
  match v with
  | PTuple [_; _; _] => true
  | _ => false
  end.

(** ** Reconciliation and invariant of the labels *)

(** The caller's list after [__init__]: extended with empty labels when it
    is non-empty and shorter than the point list, as it was otherwise. *)
Definition padded (ls : list string) (n : nat) : list string :=
  if negb (length ls =? 0) && (length ls <? n)
  then ls ++ replicate (n - length ls) ""
  else ls.

(** The stored label list exists and is empty or as long as the point
    list. *)
Definition labels_invariant (self : KSpace) (w : world) : bool :=
  match heap w !! point_labels self with
  | Some stored =>
      (length stored =? 0) || (length stored =? length (points self))
  | None => false
  end.

(** ** Rendering *)

(** [''.join(lines)] *)
Definition join (lines : list string) : string := foldr String.append "" lines.

(** The element of [comments] that [__str__] builds for the label [pl]:
    ['  ;' + pl if pl else pl]. *)
Definition comment_of (pl : string) : string :=
  if negb (String.length pl =? 0) then "  ;" +:+ pl else pl.

Section RenderingSpec.
Context `{Runtime}.

(** The line of the ctl file for a stored point and its label; a point
    without label, or with the empty label, has no comment. *)
Definition spec_line (p : pyval) (label : string) : string :=
  match p with
  | PTuple [x; y; z] =>
      "    (vector3 " +:+ py_str x +:+ " " +:+ py_str y +:+ " " +:+ py_str z +:+
      ")" +:+ (if bool_decide (label = "") then "" else "  ;" +:+ label) +:+ nl
  | _ => ""
  end.

(** The lines of all stored points, given the stored labels: without
    labels every point is rendered as if its label were empty. *)
Definition spec_vectors (pts : list pyval) (stored : list string) : string :=
  join (zip_with spec_line pts
          (if length stored =? 0 then replicate (length pts) "" else stored)).

End RenderingSpec.

(** ** Computations that only read *)

(** A computation that leaves the store and the log as they are, whether
    it returns or raises. *)
Definition readonly {A : Type} (m : M A) : Prop := forall w, snd (m w) = w.

(** ** Samples of [linspace] *)

(** The sample number [i] of [n] evenly spaced samples from -0.5 to 0.5:
    -0.5 first, 0.5 last when there are at least two, and in between the
    index times the step [1 / (n - 1)], shifted by -0.5, in binary64. *)
Definition grid_sample (n i : nat) : float :=
  if i =? 0 then (-0.5)%float
  else if i + 1 =? n then 0.5%float
  else (float_of_nat i * (1 / float_of_nat (n - 1)) + -0.5)%float.

(** ** Example configurations *)

(** An MPB older than 1.5, which has no [kinterpolate-uniform]. *)
Definition mpb_old : Defaults :=
  {| default_k_interpolation := 3;
     k_interpolation_function := "interpolate";
     k_uniform_interpolation_function := "kinterpolate-uniform";
     newmpb := false |}.

(** An MPB from 1.5 on. *)
Definition mpb_new : Defaults :=
  {| default_k_interpolation := 3;
     k_interpolation_function := "interpolate";
     k_uniform_interpolation_function := "kinterpolate-uniform";
     newmpb := true |}.

(** A runtime that prints the three floats the presets use. *)
Definition sample_runtime : Runtime :=
  {| float_str := fun f =>
       if (f =? 0.5)%float then "0.5"
       else if (f =? -0.5)%float then "-0.5"
       else if (f =? 0)%float then "0.0"
       else "nan";
     repr := fun _ => "()" |}.

(** * Properties *)

(** ** Running the monad *)

Lemma bind_run {A B : Type} (m : M A) (k : A -> M B) (w w' : world) (a : A) :
  m w = (Ok a, w') -> (m ≫= k) w = k a w'.
Proof. intros E. unfold mbind, M_bind. now rewrite E. Qed.

Lemma world_eta (w : world) : World (heap w) (warnings w) = w.
Proof. now destruct w. Qed.

Lemma log_nothing (w : world) : World (heap w) (warnings w ++ []) = w.
Proof. rewrite app_nil_r. apply world_eta. Qed.

(** ** Normalisation of the points *)

Lemma three_tuple_run (item : pyval) (w : world) :
  three_tuple item w =
  (Ok (spec_normalize item),
   World (heap w)
     (warnings w ++ if overlong item then [truncation_warning] else [])).
Proof.
  destruct item as [| b | z | f | s | l | l];
    try (cbn; now rewrite log_nothing).
  - destruct l as [| x [| y [| z [| t l]]]]; cbn; now rewrite ?log_nothing.
  - destruct l as [| x [| y [| z [| t l]]]]; cbn; now rewrite ?log_nothing.
Qed.

Lemma spec_normalize_three (item : pyval) :
  is_three_tuple (spec_normalize item) = true.
Proof.
  destruct item as [| b | z | f | s | l | l]; try reflexivity;
    now destruct l as [| x [| y [| z [| t l]]]].
Qed.

Lemma build_three_list_run (points_list three_list : list pyval) (w : world) :
  build_three_list points_list three_list w =
  (Ok (three_list ++ (spec_normalize <$> points_list)),
   World (heap w) (warnings w ++ truncation_warnings points_list)).
Proof.
  revert three_list w.
  induction points_list as [| item rest IH]; intros three_list w.
  - cbn. now rewrite app_nil_r, log_nothing.
  - cbn [build_three_list].
    rewrite (bind_run _ _ _ _ _ (three_tuple_run item w)), IH.
    cbn. now rewrite <- !(assoc_L (++)).
Qed.

(** ** Reconciliation of the labels *)

Lemma padded_length (ls : list string) (n : nat) :
  length (take n (padded ls n)) = 0 /\ length ls = 0 \/
  length (take n (padded ls n)) = n.
Proof.
  unfold padded.
  destruct (Nat.eqb_spec (length ls) 0) as [E | E];
    destruct (Nat.ltb_spec (length ls) n) as [L | L]; cbn [negb andb];
    rewrite length_take, ?length_app, ?length_replicate; lia.
Qed.

Lemma reconcile_labels_run (lbl : loc) (n : nat) (w : world) (ls : list string) :
  heap w !! lbl = Some ls ->
  reconcile_labels lbl n w =
  (Ok (length (heap w)),
   World (<[lbl := padded ls n]> (heap w) ++ [take n (padded ls n)]) (warnings w)).
Proof.
  intros E. unfold reconcile_labels, padded.
  assert (D : deref lbl w = (Ok ls, w)) by (unfold deref; now rewrite E).
  rewrite (bind_run _ _ _ _ _ D).
  destruct (negb (length ls =? 0) && (length ls <? n)).
  - unfold mbind at 1, M_bind, extend. rewrite E.
    unfold mbind, M_bind, deref, alloc. cbn [heap warnings].
    rewrite list_lookup_insert_eq by (now apply lookup_lt_Some in E).
    cbn [heap warnings]. now rewrite length_insert.
  - unfold mbind, mret, M_bind, M_ret, deref, alloc. rewrite E.
    cbn [heap warnings]. now rewrite list_insert_id by exact E.
Qed.

Section Construction.
Context `{Defaults}.

(** The whole effect of [KSpace.__init__] on a world in which
    [point_labels] designates a list object. *)
Lemma KSpace_init_run (pts : list pyval) (ki : Z) (uu : bool) (lbl : loc)
    (kw : gmap string pyval) (w : world) (ls : list string) :
  heap w !! lbl = Some ls ->
  KSpace_init pts ki uu lbl kw w =
  (Ok {| k_interpolation := ki;
         use_uniform_interpolation := if uu && negb newmpb then false else uu;
         points_list := spec_normalize <$> pts;
         point_labels := length (heap w);
         extra := kw |},
   World
     (<[lbl := padded ls (length pts)]> (heap w) ++
      [take (length pts) (padded ls (length pts))])
     (warnings w ++ truncation_warnings pts ++
      if uu && negb newmpb then [fallback_warning] else [])).
Proof.
  intros E. unfold KSpace_init.
  rewrite (bind_run _ _ _ _ _ (build_three_list_run pts [] w)).
  cbn [app]. rewrite length_fmap.
  erewrite bind_run by (apply reconcile_labels_run; cbn [heap]; exact E).
  cbn [heap warnings].
  destruct (uu && negb newmpb);
    unfold mbind, mret, M_bind, M_ret, log_warning; cbn [heap warnings].
  - now rewrite <- (assoc_L (++)).
  - now rewrite app_nil_r.
Qed.

End Construction.

(** ** Rendering *)

Section Rendering.
Context `{Defaults} `{Runtime}.

Lemma plain_lines_run (pts : list pyval) (w : world) :
  Forall (fun p => is_three_tuple p = true) pts ->
  plain_lines pts w =
  (Ok (join (zip_with spec_line pts (replicate (length pts) ""))), w).
Proof.
  induction 1 as [| p pts Hp _ IH]; [reflexivity |].
  destruct p as [| | | | | [| x [| y [| z [| t l]]]] |]; try discriminate.
  cbn [plain_lines length replicate zip_with].
  rewrite (bind_run _ _ w w (x, y, z)) by reflexivity. cbn beta iota.
  now rewrite (bind_run _ _ _ _ _ IH).
Qed.

Lemma comment_of_spec (pl : string) :
  comment_of pl = if bool_decide (pl = "") then "" else "  ;" +:+ pl.
Proof. now destruct pl. Qed.

Lemma commented_lines_run (stored : list string) (pts : list pyval)
    (i : nat) (w : world) :
  Forall (fun p => is_three_tuple p = true) pts ->
  i + length pts <= length stored ->
  commented_lines (comment_of <$> stored) i pts w =
  (Ok (join (zip_with spec_line pts (drop i stored))), w).
Proof.
  intros Hpts. revert i.
  induction Hpts as [| p pts Hp _ IH]; intros i Hlen.
  - now destruct (drop i stored).
  - destruct p as [| | | | | [| x [| y [| z [| t l]]]] |]; try discriminate.
    cbn [length] in Hlen.
    destruct (lookup_lt_is_Some_2 stored i ltac:(lia)) as [pl Hpl].
    rewrite (drop_S _ _ _ Hpl).
    assert (C : comment_at (comment_of <$> stored) i w = (Ok (comment_of pl), w))
      by (unfold comment_at; now rewrite list_lookup_fmap, Hpl).
    cbn [commented_lines].
    rewrite (bind_run _ _ w w x) by reflexivity.
    rewrite (bind_run _ _ w w y) by reflexivity.
    rewrite (bind_run _ _ w w z) by reflexivity.
    rewrite (bind_run _ _ _ _ _ C).
    rewrite (bind_run _ _ _ _ _ (IH (S i) ltac:(lia))).
    cbn [zip_with join foldr spec_line]. unfold vector3_commented.
    now rewrite comment_of_spec.
Qed.

(** The result of [__str__] on an object whose points are 3-tuples and
    whose stored label list is empty or as long as the point list. *)
Lemma KSpace_str_run (self : KSpace) (w : world) (stored : list string) :
  heap w !! point_labels self = Some stored ->
  length stored = 0 \/ length stored = length (points self) ->
  Forall (fun p => is_three_tuple p = true) (points self) ->
  KSpace_str self w =
  (Ok (let vectors := spec_vectors (points self) stored in
       let interpol_func :=
         if use_uniform_interpolation self
         then k_uniform_interpolation_function
         else k_interpolation_function in
       if negb (k_interpolation self =? 0)%Z
       then "(" +:+ interpol_func +:+ " " +:+ pretty (k_interpolation self) +:+
            " (list" +:+ nl +:+ vectors +:+ "))"
       else "(list" +:+ nl +:+ vectors +:+ ")"),
   w).
Proof.
  intros E Hlen Hpts. unfold KSpace_str, spec_vectors.
  assert (D : deref (point_labels self) w = (Ok stored, w))
    by (unfold deref; now rewrite E).
  rewrite (bind_run _ _ _ _ _ D).
  fold comment_of.
  destruct (Nat.eqb_spec (length stored) 0) as [Z0 | NZ]; cbn [negb].
  - rewrite (bind_run _ _ _ _ _ (plain_lines_run _ w Hpts)).
    now destruct (k_interpolation self =? 0)%Z.
  - destruct Hlen as [? | Hlen]; [lia |].
    erewrite bind_run
      by (apply commented_lines_run; [exact Hpts | cbn; lia]).
    rewrite drop_0. now destruct (k_interpolation self =? 0)%Z.
Qed.

End Rendering.

(** ** The constructor *)

Lemma three_tuple_value (item : pyval) (w : world) :
  fst (three_tuple item w) = Ok (spec_normalize item).
Proof. now rewrite three_tuple_run. Qed.

Lemma sequence_items_inv (item : pyval) (l : list pyval) :
  sequence_items item = Some l -> item = PTuple l \/ item = PList l.
Proof. destruct item; cbn; intros [= <-]; auto. Qed.


(** C1.  [KSpace.__init__] turns every raw point into a tuple of exactly
    three components.  The loop body gives [(item, 0, 0)] for a string and
    for a value that is no sequence (and for an empty sequence),
    [(item[0], 0, 0)] for a sequence of one element,
    [(item[0], item[1], 0)] for one of two, the tuple of the elements for
    one of three, and the tuple of the first three elements together with a
    warning for a longer one.  The stored point list holds, in order, what
    the loop body gives for each item, so each of its entries is a 3-tuple,
    and the log grows by one truncation warning per over-long item. *)
Theorem points_are_three_tuples `{Defaults} (pts : list pyval) (ki : Z)
    (uu : bool) (lbl : loc) (kw : gmap string pyval) (w : world)
    (ls : list string) :
  heap w !! lbl = Some ls ->
  (forall item w0, sequence_items item = None ->
     three_tuple item w0 = (Ok (PTuple [item; PInt 0; PInt 0]), w0)) /\
  (forall item w0, sequence_items item = Some [] ->
     three_tuple item w0 = (Ok (PTuple [item; PInt 0; PInt 0]), w0)) /\
  (forall item x w0, sequence_items item = Some [x] ->
     three_tuple item w0 = (Ok (PTuple [x; PInt 0; PInt 0]), w0)) /\
  (forall item x y w0, sequence_items item = Some [x; y] ->
     three_tuple item w0 = (Ok (PTuple [x; y; PInt 0]), w0)) /\
  (forall item x y z w0, sequence_items item = Some [x; y; z] ->
     three_tuple item w0 = (Ok (PTuple [x; y; z]), w0)) /\
  (forall item x y z t l w0, sequence_items item = Some (x :: y :: z :: t :: l) ->
     three_tuple item w0 =
     (Ok (PTuple [x; y; z]),
      World (heap w0) (warnings w0 ++ [truncation_warning]))) /\
  exists self w',
    KSpace_init pts ki uu lbl kw w = (Ok self, w') /\
    Forall2 (fun item p => forall w0, fst (three_tuple item w0) = Ok p)
      pts (points self) /\
    Forall (fun p => exists x y z, p = PTuple [x; y; z]) (points self) /\
    warnings w' =
      warnings w ++
      (item ← pts;
       match sequence_items item with
       | Some (_ :: _ :: _ :: _ :: _) => [truncation_warning]
       | _ => []
       end) ++
      (if uu && negb newmpb then [fallback_warning] else []).
Proof.
  intros E.
  repeat match goal with |- _ /\ _ => split end.
  - intros [] w0 [=]; rewrite three_tuple_run; cbn; now rewrite log_nothing.
  - intros item w0 [-> | ->]%sequence_items_inv;
      rewrite three_tuple_run; cbn; now rewrite log_nothing.
  - intros item x w0 [-> | ->]%sequence_items_inv;
      rewrite three_tuple_run; cbn; now rewrite log_nothing.
  - intros item x y w0 [-> | ->]%sequence_items_inv;
      rewrite three_tuple_run; cbn; now rewrite log_nothing.
  - intros item x y z w0 [-> | ->]%sequence_items_inv;
      rewrite three_tuple_run; cbn; now rewrite log_nothing.
  - intros item x y z t l w0 [-> | ->]%sequence_items_inv;
      now rewrite three_tuple_run.
  - eexists _, _. split; [apply (KSpace_init_run _ _ _ _ _ _ _ E) |].
    unfold points; cbn [points_list warnings]. repeat split.
    + apply Forall2_fmap_r, Forall_Forall2_diag, Forall_true.
      intros item w0. apply three_tuple_value.
    + apply Forall_fmap, Forall_true. intros item. cbn.
      pose proof (spec_normalize_three item) as T.
      destruct (spec_normalize item) as [| | | | | [| x [| y [| z [| t l]]]] |];
        try discriminate. now exists x, y, z.
    + do 2 f_equal. unfold truncation_warnings.
      induction pts as [| item pts IH]; [reflexivity |].
      cbn [mbind list_bind]. rewrite IH. f_equal.
      destruct item as [| | | | | l | l]; try reflexivity;
        now destruct l as [| x [| y [| z [| t l]]]].
Qed.

(** The example of the docstring, [[0.5, (0.5, 1)]], followed by a symbolic
    string and a list of four numbers. *)
Lemma points_are_three_tuples_witness :
  heap initial_world !! point_labels_default = Some [] /\
  exists self w',
    @KSpace_init mpb_old
      [PFloat 0.5; PTuple [PFloat 0.5; PInt 1]; PStr "(/ 3)";
       PList [PInt 1; PInt 2; PInt 3; PInt 4]]
      3 false point_labels_default ∅ initial_world = (Ok self, w') /\
    points self =
      [PTuple [PFloat 0.5; PInt 0; PInt 0];
       PTuple [PFloat 0.5; PInt 1; PInt 0];
       PTuple [PStr "(/ 3)"; PInt 0; PInt 0];
       PTuple [PInt 1; PInt 2; PInt 3]] /\
    warnings w' = [truncation_warning].
Proof.
  split; [reflexivity |].
  destruct (@points_are_three_tuples mpb_old
              [PFloat 0.5; PTuple [PFloat 0.5; PInt 1]; PStr "(/ 3)";
               PList [PInt 1; PInt 2; PInt 3; PInt 4]]
              3 false point_labels_default ∅ initial_world [] eq_refl)
    as (_ & _ & _ & _ & _ & _ & self & w' & E & _ & _ & W).
  exists self, w'. split; [exact E |].
  split; [| exact W].
  cbv in E. injection E as <- _. reflexivity.
Defined.

(** C5.  A construction that asks for uniform interpolation never raises.
    When [defaults.newmpb] is false the object stores
    [use_uniform_interpolation = False] and the fallback warning is the
    last message logged; when it is true the requested [True] is stored
    and no fallback warning is logged. *)
Theorem uniform_interpolation_fallback `{Defaults} (pts : list pyval) (ki : Z)
    (lbl : loc) (kw : gmap string pyval) (w : world) (ls : list string) :
  heap w !! lbl = Some ls ->
  exists self w',
    KSpace_init pts ki true lbl kw w = (Ok self, w') /\
    (newmpb = false ->
       use_uniform_interpolation self = false /\
       warnings w' = warnings w ++ truncation_warnings pts ++ [fallback_warning]) /\
    (newmpb = true ->
       use_uniform_interpolation self = true /\
       warnings w' = warnings w ++ truncation_warnings pts).
Proof.
  intros E. eexists _, _.
  split; [apply (KSpace_init_run _ _ _ _ _ _ _ E) |].
  cbn [use_uniform_interpolation warnings].
  split; intros ->; cbn; now rewrite ?app_nil_r.
Qed.

Lemma uniform_interpolation_fallback_witness :
  heap initial_world !! point_labels_default = Some [] /\
  exists self w',
    @KSpace_init mpb_old [PInt 0; PFloat 0.5] 4 true point_labels_default ∅
      initial_world = (Ok self, w') /\
    use_uniform_interpolation self = false /\
    warnings w' = [fallback_warning].
Proof.
  split; [reflexivity |].
  destruct (@uniform_interpolation_fallback mpb_old [PInt 0; PFloat 0.5] 4
              point_labels_default ∅ initial_world [] eq_refl)
    as (self & w' & E & Old & _).
  exists self, w'. split; [exact E |]. exact (Old eq_refl).
Defined.

(** C4.  For a path built from at least one raw point,
    [count_interpolated()] is
    [(len(points) - 1) * (k_interpolation + 1) + 1], the number of stored
    points being the number of raw points; four points with
    [k_interpolation = 3] give 13. *)
Theorem count_interpolated_formula `{Defaults} (pts : list pyval) (ki : Z)
    (uu : bool) (lbl : loc) (kw : gmap string pyval) (w : world)
    (ls : list string) :
  heap w !! lbl = Some ls ->
  1 <= length pts ->
  exists self w',
    KSpace_init pts ki uu lbl kw w = (Ok self, w') /\
    length (points self) = length pts /\
    k_interpolation self = ki /\
    count_interpolated self =
      ((Z.of_nat (length (points self)) - 1) * (k_interpolation self + 1) + 1)%Z /\
    (length pts = 4 -> ki = 3%Z -> count_interpolated self = 13%Z).
Proof.
  intros E _. eexists _, _.
  split; [apply (KSpace_init_run _ _ _ _ _ _ _ E) |].
  unfold count_interpolated, points. cbn [points_list k_interpolation].
  rewrite length_fmap. repeat split. now intros -> ->.
Qed.

Lemma count_interpolated_formula_witness :
  heap initial_world !! point_labels_default = Some [] /\
  1 <= length [PInt 0; PInt 1; PInt 2; PInt 3] /\
  exists self w',
    @KSpace_init mpb_new [PInt 0; PInt 1; PInt 2; PInt 3] 3 false
      point_labels_default ∅ initial_world = (Ok self, w') /\
    count_interpolated self = 13%Z.
Proof.
  split; [reflexivity |]. split; [cbn; lia |].
  destruct (@count_interpolated_formula mpb_new
              [PInt 0; PInt 1; PInt 2; PInt 3] 3 false point_labels_default ∅
              initial_world [] eq_refl ltac:(cbn; lia))
    as (self & w' & E & _ & _ & _ & C).
  exists self, w'. split; [exact E |]. exact (C eq_refl eq_refl).
Defined.

(** C10.  The list object passed as [point_labels] is extended in place
    with empty strings up to the number of points when it is non-empty and
    shorter than the point list; an empty one, and one at least as long as
    the point list, keeps its contents.  The object stores a new list, and
    no other list object changes. *)
Theorem caller_labels_extended_in_place `{Defaults} (pts : list pyval) (ki : Z)
    (uu : bool) (lbl : loc) (kw : gmap string pyval) (w : world)
    (ls : list string) :
  heap w !! lbl = Some ls ->
  exists self w',
    KSpace_init pts ki uu lbl kw w = (Ok self, w') /\
    (0 < length ls < length pts ->
       heap w' !! lbl = Some (ls ++ replicate (length pts - length ls) "")) /\
    (length ls = 0 \/ length pts <= length ls -> heap w' !! lbl = Some ls) /\
    point_labels self <> lbl /\
    heap w !! point_labels self = None /\
    (forall l, l <> lbl -> l <> point_labels self -> heap w' !! l = heap w !! l).
Proof.
  intros E. pose proof (lookup_lt_Some _ _ _ E) as Hlt.
  eexists _, _. split; [apply (KSpace_init_run _ _ _ _ _ _ _ E) |].
  cbn [heap point_labels].
  assert (L : forall x : list string,
             (<[lbl := x]> (heap w) ++
              [take (length pts) (padded ls (length pts))]) !! lbl = Some x).
  { intros x. rewrite lookup_app_l by (now rewrite length_insert).
    now apply list_lookup_insert_eq. }
  repeat split.
  - intros [Hpos Hshort]. rewrite L. unfold padded.
    destruct (Nat.eqb_spec (length ls) 0); [lia |].
    destruct (Nat.ltb_spec (length ls) (length pts)); [reflexivity | lia].
  - intros Hkeep. rewrite L. unfold padded.
    destruct (Nat.eqb_spec (length ls) 0); [reflexivity |].
    destruct (Nat.ltb_spec (length ls) (length pts)); [lia | reflexivity].
  - lia.
  - now apply lookup_ge_None_2.
  - intros l Hl Hnew.
    destruct (decide (l < length (heap w))) as [Hin | Hout].
    + rewrite lookup_app_l by (now rewrite length_insert).
      now apply list_lookup_insert_ne.
    + rewrite !lookup_ge_None_2;
        rewrite ?length_app, ?length_insert; cbn; [reflexivity | lia | lia].
Qed.

(** Two labels for four points: the caller's list has four entries
    afterwards. *)
Lemma caller_labels_extended_in_place_witness :
  heap (World [[]; ["Gamma"; "M"]] []) !! 1 = Some ["Gamma"; "M"] /\
  exists self w',
    @KSpace_init mpb_new [PInt 0; PInt 1; PInt 2; PInt 3] 0 false 1 ∅
      (World [[]; ["Gamma"; "M"]] []) = (Ok self, w') /\
    heap w' !! 1 = Some ["Gamma"; "M"; ""; ""] /\
    point_labels self = 2.
Proof.
  split; [reflexivity |].
  destruct (@caller_labels_extended_in_place mpb_new
              [PInt 0; PInt 1; PInt 2; PInt 3] 0 false 1 ∅
              (World [[]; ["Gamma"; "M"]] []) ["Gamma"; "M"] eq_refl)
    as (self & w' & E & Ext & _).
  exists self, w'. split; [exact E |].
  split; [apply Ext; cbn; lia |].
  cbv in E. injection E as <- _. reflexivity.
Defined.

(** ** Methods that only read *)

Create HintDb readonly.

Lemma readonly_ret {A : Type} (a : A) : readonly (mret a).
Proof. now intros w. Qed.

Lemma readonly_raise {A : Type} (e : exn) : readonly (@raise A e).
Proof. now intros w. Qed.

Lemma readonly_bind {A B : Type} (m : M A) (k : A -> M B) :
  readonly m -> (forall a, readonly (k a)) -> readonly (m ≫= k).
Proof.
  intros Hm Hk w. unfold mbind, M_bind. specialize (Hm w).
  destruct (m w) as [[a | e] w']; cbn in Hm; subst w'; [apply Hk | reflexivity].
Qed.

Lemma readonly_deref (l : loc) : readonly (deref l).
Proof. intros w. unfold deref. now destruct (heap w !! l). Qed.

Lemma readonly_getitem (v : pyval) (i : nat) : readonly (getitem v i).
Proof.
  intros w. destruct v as [| b | z | f | s | l | l]; cbn; try reflexivity.
  - now destruct (String.get i s).
  - now destruct (l !! i).
  - now destruct (l !! i).
Qed.

Lemma readonly_tuple (v : pyval) : readonly (tuple v).
Proof. intros w. now destruct v. Qed.

Lemma readonly_comment_at (comments : list string) (i : nat) :
  readonly (comment_at comments i).
Proof. intros w. unfold comment_at. now destruct (comments !! i). Qed.

#[global] Hint Resolve readonly_ret readonly_raise readonly_deref
  readonly_getitem readonly_tuple readonly_comment_at : readonly.

Lemma readonly_unpack3 (v : pyval) : readonly (unpack3 v).
Proof.
  apply readonly_bind; [auto with readonly |].
  intros [| | | | | [| x [| y [| z [| t l]]]] |]; auto with readonly.
Qed.

Section ReadOnly.
Context `{Defaults} `{Runtime}.

Lemma readonly_plain_lines (pts : list pyval) : readonly (plain_lines pts).
Proof.
  induction pts as [| p pts IH]; cbn [plain_lines]; [auto with readonly |].
  apply readonly_bind; [apply readonly_unpack3 |]. intros [[x y] z].
  apply readonly_bind; auto with readonly.
Qed.

Lemma readonly_commented_lines (comments : list string) (pts : list pyval)
    (i : nat) :
  readonly (commented_lines comments i pts).
Proof.
  revert i. induction pts as [| p pts IH]; intros i; cbn [commented_lines];
    [auto with readonly |].
  do 4 (apply readonly_bind; [auto with readonly | intros ?]).
  apply readonly_bind; [apply IH | auto with readonly].
Qed.

Lemma readonly_KSpace_str (self : KSpace) : readonly (KSpace_str self).
Proof.
  unfold KSpace_str.
  apply readonly_bind; [auto with readonly | intros stored].
  apply readonly_bind.
  - destruct (negb (length stored =? 0));
      [apply readonly_commented_lines | apply readonly_plain_lines].
  - intros vectors.
    destruct (negb (k_interpolation self =? 0)%Z); auto with readonly.
Qed.

End ReadOnly.

Lemma has_labels_run (self : KSpace) (w : world) (stored : list string) :
  heap w !! point_labels self = Some stored ->
  has_labels self w =
  (Ok (if length stored =? 0 then PInt 0
       else PBool (bool_decide (length (points self) = length stored))),
   w).
Proof.
  intros E. unfold has_labels.
  assert (D : deref (point_labels self) w = (Ok stored, w))
    by (unfold deref; now rewrite E).
  rewrite (bind_run _ _ _ _ _ D). now destruct stored.
Qed.

Lemma readonly_has_labels (self : KSpace) : readonly (has_labels self).
Proof.
  unfold has_labels. apply readonly_bind; [auto with readonly |].
  intros stored. destruct (truthy _); auto with readonly.
Qed.

(** [labels()] on an object whose label list exists: the new list object
    is a copy of the stored one when [has_labels()] holds, and empty
    otherwise. *)
Lemma labels_run (self : KSpace) (w : world) (stored : list string) :
  heap w !! point_labels self = Some stored ->
  labels self w =
  (Ok (length (heap w)),
   World
     (heap w ++
      [if negb (length stored =? 0) &&
          bool_decide (length (points self) = length stored)
       then stored else []])
     (warnings w)).
Proof.
  intros E. unfold labels.
  rewrite (bind_run _ _ _ _ _ (has_labels_run _ _ _ E)).
  assert (D : deref (point_labels self) w = (Ok stored, w))
    by (unfold deref; now rewrite E).
  destruct (length stored =? 0); cbn [negb andb truthy]; [reflexivity |].
  destruct (bool_decide _); [| reflexivity].
  now rewrite (bind_run _ _ _ _ _ D).
Qed.

(** ** The invariant of the stored labels *)

Lemma labels_invariant_spec (self : KSpace) (w : world) :
  labels_invariant self w = true <->
  exists stored,
    heap w !! point_labels self = Some stored /\
    (length stored = 0 \/ length stored = length (points self)).
Proof.
  unfold labels_invariant. split.
  - destruct (heap w !! point_labels self) as [stored |]; [| discriminate].
    intros [E | E]%orb_true_iff; apply Nat.eqb_eq in E; eauto.
  - intros (stored & -> & [E | E]); apply orb_true_iff;
      [left | right]; now apply Nat.eqb_eq.
Qed.

Lemma labels_invariant_frame (self : KSpace) (w w' : world) :
  heap w' !! point_labels self = heap w !! point_labels self ->
  labels_invariant self w' = labels_invariant self w.
Proof. unfold labels_invariant. now intros ->. Qed.

(** A construction leaves every existing list object other than its
    [point_labels] argument as it is, also when it raises. *)
Lemma KSpace_init_frame `{Defaults} (pts : list pyval) (ki : Z) (uu : bool)
    (lbl : loc) (kw : gmap string pyval) (w : world) (l : loc) :
  l <> lbl -> l < length (heap w) ->
  heap (snd (KSpace_init pts ki uu lbl kw w)) !! l = heap w !! l.
Proof.
  intros Hne Hlt.
  destruct (heap w !! lbl) as [ls |] eqn:E.
  - rewrite (KSpace_init_run _ _ _ _ _ _ _ E). cbn [snd heap].
    rewrite lookup_app_l by (now rewrite length_insert).
    apply list_lookup_insert_ne. congruence.
  - unfold KSpace_init.
    rewrite (bind_run _ _ _ _ _ (build_three_list_run pts [] w)).
    unfold reconcile_labels, mbind, M_bind, deref. cbn [heap]. now rewrite E.
Qed.

(** C9.  The label list stored by [KSpace.__init__] is the argument,
    padded with empty strings when it is non-empty and too short, cut to
    the number of points; its length is 0 or the number of points.  This
    invariant is kept by [__str__], [has_labels()], [labels()] and by any
    later construction from another list object ([points()] and
    [count_interpolated()] do not touch the store).  It is not kept by
    every operation: a later construction that is handed the stored list
    object itself keeps it exactly when that list is empty or the new
    path has no more points than the list has labels, and otherwise
    extends the stored list in place.  Under the invariant [has_labels()]
    is true exactly when the stored list is non-empty. *)
Theorem label_length_invariant `{Defaults} `{Runtime} (pts : list pyval)
    (ki : Z) (uu : bool) (lbl : loc) (kw : gmap string pyval) (w : world)
    (ls : list string) :
  heap w !! lbl = Some ls ->
  exists self w',
    KSpace_init pts ki uu lbl kw w = (Ok self, w') /\
    heap w' !! point_labels self =
      Some (take (length pts)
              (if negb (length ls =? 0) && (length ls <? length pts)
               then ls ++ replicate (length pts - length ls) ""
               else ls)) /\
    length (points self) = length pts /\
    labels_invariant self w' = true /\
    forall (k : KSpace) (w1 : world),
      labels_invariant k w1 = true ->
      labels_invariant k (snd (KSpace_str k w1)) = true /\
      labels_invariant k (snd (has_labels k w1)) = true /\
      labels_invariant k (snd (labels k w1)) = true /\
      (forall pts2 ki2 uu2 lbl2 kw2,
         lbl2 <> point_labels k ->
         labels_invariant k (snd (KSpace_init pts2 ki2 uu2 lbl2 kw2 w1)) = true) /\
      (exists stored,
         heap w1 !! point_labels k = Some stored /\
         forall pts2 ki2 uu2 kw2,
           labels_invariant k
             (snd (KSpace_init pts2 ki2 uu2 (point_labels k) kw2 w1)) =
           (length stored =? 0) || (length pts2 <=? length stored)) /\
      exists b stored,
        has_labels k w1 = (Ok b, w1) /\
        heap w1 !! point_labels k = Some stored /\
        (truthy b = true <-> stored <> []).
Proof.
  intros E. pose proof (lookup_lt_Some _ _ _ E) as Hlt.
  eexists _, _. split; [apply (KSpace_init_run _ _ _ _ _ _ _ E) |].
  unfold points at 1. cbn [heap point_labels points_list].
  assert (S : (<[lbl := padded ls (length pts)]> (heap w) ++
               [take (length pts) (padded ls (length pts))]) !! length (heap w) =
              Some (take (length pts) (padded ls (length pts)))).
  { rewrite lookup_app_r by (now rewrite length_insert).
    now rewrite length_insert, Nat.sub_diag. }
  split; [exact S |]. split; [apply length_fmap |]. split.
  - apply labels_invariant_spec. eexists. split; [exact S |].
    unfold points. cbn [points_list]. rewrite length_fmap.
    destruct (padded_length ls (length pts)) as [[-> _] | ->]; auto.
  - intros k w1 Inv.
    pose proof Inv as (stored & Ek & Hlen)%labels_invariant_spec.
    pose proof (lookup_lt_Some _ _ _ Ek) as Hk.
    split; [now rewrite readonly_KSpace_str |].
    split; [now rewrite readonly_has_labels |].
    split; [| split; [| split]].
    + rewrite <- Inv. apply labels_invariant_frame.
      rewrite (labels_run _ _ _ Ek). cbn [snd heap]. now apply lookup_app_l.
    + intros pts2 ki2 uu2 lbl2 kw2 Hne. rewrite <- Inv.
      apply labels_invariant_frame. apply KSpace_init_frame; [congruence | exact Hk].
    + exists stored. split; [exact Ek |]. intros pts2 ki2 uu2 kw2.
      rewrite (KSpace_init_run _ _ _ _ _ _ _ Ek). cbn [snd].
      unfold labels_invariant. cbn [heap].
      rewrite lookup_app_l by (now rewrite length_insert).
      rewrite list_lookup_insert_eq by exact Hk.
      unfold padded.
      destruct (Nat.eqb_spec (length stored) 0) as [Z0 | N0]; cbn [negb andb].
      * rewrite Z0. reflexivity.
      * destruct (Nat.ltb_spec (length stored) (length pts2)) as [Lt | Ge].
        -- rewrite length_app, length_replicate.
           destruct (Nat.leb_spec (length pts2) (length stored)); [lia |].
           apply orb_false_iff. split; apply Nat.eqb_neq; lia.
        -- destruct (Nat.leb_spec (length pts2) (length stored)); [| lia].
           destruct (Nat.eqb_spec (length stored) 0); [lia |].
           cbn [orb]. apply Nat.eqb_eq. lia.
    + eexists _, stored. split; [apply (has_labels_run _ _ _ Ek) |].
      split; [exact Ek |].
      destruct stored as [| pl stored]; [now cbn |].
      destruct Hlen as [Hlen | Hlen]; [discriminate |].
      cbn [length Nat.eqb truthy]. now rewrite bool_decide_eq_true_2.
Qed.

(** Two labels for four points are stored as four labels. *)
Lemma label_length_invariant_witness :
  heap (World [[]; ["Gamma"; "M"]] []) !! 1 = Some ["Gamma"; "M"] /\
  exists self w',
    @KSpace_init mpb_new [PInt 0; PInt 1; PInt 2; PInt 3] 0 false 1 ∅
      (World [[]; ["Gamma"; "M"]] []) = (Ok self, w') /\
    heap w' !! point_labels self = Some ["Gamma"; "M"; ""; ""] /\
    labels_invariant self w' = true.
Proof.
  split; [reflexivity |].
  destruct (@label_length_invariant mpb_new sample_runtime
              [PInt 0; PInt 1; PInt 2; PInt 3] 0 false 1 ∅
              (World [[]; ["Gamma"; "M"]] []) ["Gamma"; "M"] eq_refl)
    as (self & w' & E & St & _ & Inv & _).
  exists self, w'. split; [exact E |]. split; [exact St | exact Inv].
Defined.

(** A construction does not keep the invariant of another object whose
    stored list it is handed: [k = KSpace([0], point_labels=["Gamma"])]
    stores one label for its one point; then
    [KSpace([0, 1], point_labels=k.point_labels)] extends that stored list
    to two labels, and [k] has two labels for one point: its stored list
    is neither empty nor as long as its point list, and [has_labels()] is
    false on a non-empty stored list. *)
Lemma label_length_invariant_counterexample :
  exists (k : KSpace) (w1 : world) (self2 : KSpace) (w2 : world),
    @KSpace_init mpb_new [PInt 0] 0 false 1 ∅ (World [[]; ["Gamma"]] []) =
      (Ok k, w1) /\
    heap w1 !! point_labels k = Some ["Gamma"] /\
    labels_invariant k w1 = true /\
    @KSpace_init mpb_new [PInt 0; PInt 1] 0 false (point_labels k) ∅ w1 =
      (Ok self2, w2) /\
    length (points k) = 1 /\
    heap w2 !! point_labels k = Some ["Gamma"; ""] /\
    labels_invariant k w2 = false /\
    has_labels k w2 = (Ok (PBool false), w2).
Proof.
  eexists _, _, _, _.
  split; [apply (KSpace_init_run _ _ _ 1 _ (World [[]; ["Gamma"]] [])
                   ["Gamma"] eq_refl) |].
  split; [reflexivity |]. split; [reflexivity |].
  split; [apply (KSpace_init_run _ _ _ 2 _
                   (World [[]; ["Gamma"]; ["Gamma"]] []) ["Gamma"] eq_refl) |].
  split; [reflexivity |]. split; [reflexivity |]. split; [reflexivity |].
  erewrite has_labels_run by reflexivity. reflexivity.
Qed.

(** C6.  [has_labels()] is true if and only if the stored label list is
    non-empty and as long as the point list, so it is false whenever the
    two lengths differ; [labels()] returns a new list object, which holds
    the stored labels when [has_labels()] is true and nothing otherwise,
    and changes no other object. *)
Theorem has_labels_iff (self : KSpace) (w : world) (stored : list string) :
  heap w !! point_labels self = Some stored ->
  exists b,
    has_labels self w = (Ok b, w) /\
    (truthy b = true <->
     stored <> [] /\ length stored = length (points self)) /\
    (length stored <> length (points self) -> truthy b = false) /\
    exists l w',
      labels self w = (Ok l, w') /\
      l <> point_labels self /\
      heap w !! l = None /\
      heap w' !! l = Some (if truthy b then stored else []) /\
      (forall l0, l0 <> l -> heap w' !! l0 = heap w !! l0) /\
      warnings w' = warnings w.
Proof.
  intros E. pose proof (lookup_lt_Some _ _ _ E) as Hlt.
  eexists. split; [apply (has_labels_run _ _ _ E) |].
  assert (T : truthy
                (if length stored =? 0 then PInt 0
                 else PBool (bool_decide (length (points self) = length stored))) =
              negb (length stored =? 0) &&
              bool_decide (length (points self) = length stored)).
  { now destruct (length stored =? 0). }
  rewrite T. clear T. split; [| split].
  - rewrite andb_true_iff, negb_true_iff, Nat.eqb_neq, bool_decide_eq_true.
    destruct stored; cbn; split; intros [? ?]; split; congruence.
  - intros Hne. apply andb_false_iff. right.
    apply bool_decide_eq_false. congruence.
  - eexists _, _. split; [apply (labels_run _ _ _ E) |].
    cbn [heap warnings]. split; [lia |].
    split; [now apply lookup_ge_None_2 |].
    split; [now rewrite lookup_app_r, Nat.sub_diag |].
    split; [| reflexivity].
    intros l0 Hl0. destruct (decide (l0 < length (heap w))) as [Hin | Hout].
    + now apply lookup_app_l.
    + rewrite !lookup_ge_None_2; rewrite ?length_app; cbn; [reflexivity | lia | lia].
Qed.

(** Three labels stored for three points. *)
Lemma has_labels_iff_witness :
  heap (World [[]; ["a"; "b"; "c"]] []) !! 1 = Some ["a"; "b"; "c"] /\
  exists b,
    has_labels
      {| k_interpolation := 0; use_uniform_interpolation := false;
         points_list := [PTuple [PInt 0; PInt 0; PInt 0];
                         PTuple [PInt 1; PInt 0; PInt 0];
                         PTuple [PInt 2; PInt 0; PInt 0]];
         point_labels := 1; extra := ∅ |}
      (World [[]; ["a"; "b"; "c"]] []) =
    (Ok b, World [[]; ["a"; "b"; "c"]] []) /\
    truthy b = true.
Proof.
  split; [reflexivity |].
  destruct (has_labels_iff
              {| k_interpolation := 0; use_uniform_interpolation := false;
                 points_list := [PTuple [PInt 0; PInt 0; PInt 0];
                                 PTuple [PInt 1; PInt 0; PInt 0];
                                 PTuple [PInt 2; PInt 0; PInt 0]];
                 point_labels := 1; extra := ∅ |}
              (World [[]; ["a"; "b"; "c"]] []) ["a"; "b"; "c"] eq_refl)
    as (b & E & Iff & _).
  exists b. split; [exact E |]. apply Iff. split; [discriminate | reflexivity].
Defined.

(** ** Rendering a constructed path *)



Section RenderConstructed.
Context `{Defaults} `{Runtime}.





End RenderConstructed.



(** ** The presets *)

(** C7.  [KSpaceTriangular], for any interpolation count and uniform flag:
    [points()] is [(0,0,0), (0,0.5,0), ('(/ -3)','(/ 3)',0), (0,0,0)], the
    two strings as they were written, and [labels()] returns a list
    holding [Gamma, M, K, Gamma]. *)
Theorem triangular_preset `{Defaults} (ki : Z) (uu : bool) (w : world) :
  exists self w',
    KSpaceTriangular_init ki uu w = (Ok self, w') /\
    points self =
      [PTuple [PInt 0; PInt 0; PInt 0];
       PTuple [PInt 0; PFloat 0.5; PInt 0];
       PTuple [PStr "(/ -3)"; PStr "(/ 3)"; PInt 0];
       PTuple [PInt 0; PInt 0; PInt 0]] /\
    k_interpolation self = ki /\
    exists l w'',
      labels self w' = (Ok l, w'') /\
      heap w'' !! l = Some ["Gamma"; "M"; "K"; "Gamma"].
Proof.
  unfold KSpaceTriangular_init.
  set (names := ["Gamma"; "M"; "K"; "Gamma"]).
  assert (A : alloc names w =
              (Ok (length (heap w)), World (heap w ++ [names]) (warnings w)))
    by reflexivity.
  rewrite (bind_run _ _ _ _ _ A).
  assert (E : heap (World (heap w ++ [names]) (warnings w)) !! length (heap w) =
              Some names).
  { cbn [heap]. now rewrite lookup_app_r, Nat.sub_diag. }
  eexists _, _. split; [apply (KSpace_init_run _ _ _ _ _ _ _ E) |].
  split; [reflexivity |]. split; [reflexivity |].
  cbn [heap length]. change (padded names 4) with names.
  change (take 4 names) with names.
  set (h := <[length (heap w) := names]> (heap w ++ [names]) ++ [names]).
  assert (S : h !! length (heap w ++ [names]) = Some names).
  { unfold h. rewrite lookup_app_r by (now rewrite length_insert).
    now rewrite length_insert, Nat.sub_diag. }
  eexists _, _. split.
  - apply (labels_run _ (World h _) names). exact S.
  - cbn [heap point_labels]. now rewrite lookup_app_r, Nat.sub_diag.
Qed.

(** ** [numpy.linspace] and the grid *)

Lemma linspace_length (start stop : float) (n : nat) :
  length (linspace start stop n) = n.
Proof.
  unfold linspace. destruct (1 <? n).
  - rewrite length_insert, length_fmap.
    destruct (_ =? _)%float; now rewrite !length_fmap, length_seq.
  - now rewrite !length_fmap, length_seq.
Qed.

Lemma linspace_last (start stop : float) (n : nat) :
  2 <= n -> linspace start stop n !! (n - 1) = Some stop.
Proof.
  intros Hn. pose proof (linspace_length start stop n) as L.
  unfold linspace in *.
  destruct (Nat.ltb_spec 1 n) as [_ | ?]; [| lia].
  rewrite length_insert in L. apply list_lookup_insert_eq. lia.
Qed.

(** *** Rounding in binary64

    [numpy.linspace] divides, multiplies and adds in binary64.  The
    lemmas of this section follow a positive mantissa through the
    rounding of [SpecFloat], far enough to know that the step of
    [linspace(-0.5, 0.5, n)] is a positive finite number. *)

Section BinaryRounding.
Local Open Scope Z_scope.

(** The number of binary digits of a mantissa. *)
Lemma digits2_pos_size (p : positive) : digits2_pos p = Pos.size p.
Proof. induction p as [p IH | p IH |]; cbn; now rewrite ?IH. Qed.

Lemma Zdigits2_log2 (m : Z) : 0 < m -> Zdigits2 m = Z.log2 m + 1.
Proof.
  destruct m as [| p | p]; try lia. intros _. cbn [Zdigits2].
  rewrite digits2_pos_size. destruct p as [p | p |]; cbn; lia.
Qed.

Lemma Zdigits2_nonneg (m : Z) : 0 <= Zdigits2 m.
Proof. destruct m; cbn; lia. Qed.

Lemma Zdigits2_pos (m : Z) : 0 < m -> 0 < Zdigits2 m.
Proof. destruct m; cbn; lia. Qed.

Lemma Zdigits2_le (a b : Z) : 0 <= a <= b -> Zdigits2 a <= Zdigits2 b.
Proof.
  intros [Ha Hab]. destruct (Z.eq_dec a 0) as [-> | Na].
  - apply Zdigits2_nonneg.
  - rewrite !Zdigits2_log2 by lia. pose proof (Z.log2_le_mono a b Hab). lia.
Qed.

Lemma Zdigits2_lt_pow2 (m k : Z) : 0 <= k -> 0 <= m < 2 ^ k -> Zdigits2 m <= k.
Proof.
  intros Hk [Hm Hlt]. destruct (Z.eq_dec m 0) as [-> | Nm]; [cbn; lia |].
  rewrite Zdigits2_log2 by lia.
  assert (Z.log2 m < k) by (apply Z.log2_lt_pow2; lia). lia.
Qed.

Lemma Zdigits2_bounds (m : Z) : 0 < m -> 2 ^ (Zdigits2 m - 1) <= m < 2 ^ Zdigits2 m.
Proof.
  intros Hm. rewrite Zdigits2_log2 by lia.
  replace (Z.log2 m + 1 - 1) with (Z.log2 m) by lia.
  pose proof (Z.log2_spec m Hm). rewrite Z.add_1_r. lia.
Qed.

(** Shifting a mantissa right by one bit halves it. *)
Lemma shr_1_m (mrs : shr_record) :
  0 <= shr_m mrs -> shr_m (shr_1 mrs) = shr_m mrs / 2.
Proof.
  destruct mrs as [m r s]. cbn [shr_m]. intros Hm.
  destruct m as [| [p | p |] | p]; cbn [shr_1 shr_m]; try lia.
  - reflexivity.
  - rewrite Pos2Z.inj_xI. apply Z.div_unique with 1; lia.
  - rewrite Pos2Z.inj_xO. apply Z.div_unique with 0; lia.
  - reflexivity.
Qed.

Lemma pow2_xI (p : positive) : 2 ^ Zpos p~1 = 2 * (2 ^ Zpos p * 2 ^ Zpos p).
Proof.
  replace (Zpos p~1) with (Zpos p + Zpos p + 1) by lia.
  rewrite !Z.pow_add_r by lia. lia.
Qed.

Lemma pow2_xO (p : positive) : 2 ^ Zpos p~0 = 2 ^ Zpos p * 2 ^ Zpos p.
Proof.
  replace (Zpos p~0) with (Zpos p + Zpos p) by lia.
  now rewrite Z.pow_add_r by lia.
Qed.

(** Shifting right by [p] bits divides by [2 ^ p]. *)
Lemma iter_shr_m (p : positive) (mrs : shr_record) :
  0 <= shr_m mrs ->
  shr_m (SpecFloat.iter_pos shr_1 p mrs) = shr_m mrs / 2 ^ Zpos p.
Proof.
  revert mrs. induction p as [p IH | p IH |]; intros mrs Hm; cbn [SpecFloat.iter_pos].
  - assert (H1 : 0 <= shr_m (shr_1 mrs))
      by (rewrite shr_1_m by lia; apply Z.div_pos; lia).
    assert (H2 : 0 <= shr_m (SpecFloat.iter_pos shr_1 p (shr_1 mrs)))
      by (rewrite IH by lia; apply Z.div_pos; lia).
    rewrite IH, IH, shr_1_m by lia.
    rewrite !Z.div_div by lia. now rewrite pow2_xI.
  - assert (H2 : 0 <= shr_m (SpecFloat.iter_pos shr_1 p mrs))
      by (rewrite IH by lia; apply Z.div_pos; lia).
    rewrite IH, IH by lia.
    rewrite !Z.div_div by lia. now rewrite pow2_xO.
  - now rewrite shr_1_m.
Qed.

Lemma fexp_unfold (e : Z) : fexp prec emax e = fexp64 e.
Proof. reflexivity. Qed.

(** [shr_fexp] on a non-negative mantissa: the exponent it chooses and
    the mantissa it keeps. *)
Lemma shr_fexp_spec (m e : Z) (l : location) :
  0 <= m ->
  let e1 := Z.max e (fexp64 (Zdigits2 m + e)) in
  snd (shr_fexp prec emax m e l) = e1 /\
  shr_m (fst (shr_fexp prec emax m e l)) = m / 2 ^ (e1 - e).
Proof.
  intros Hm e1. unfold shr_fexp. rewrite fexp_unfold. fold e1.
  assert (Hr : shr_m (shr_record_of_loc m l) = m)
    by (destruct l as [| []]; reflexivity).
  unfold shr.
  destruct (fexp64 (Zdigits2 m + e) - e) as [| p | p] eqn:En; cbn [fst snd].
  - split; [lia |]. rewrite Hr. replace (e1 - e) with 0 by lia.
    now rewrite Z.pow_0_r, Z.div_1_r.
  - split; [lia |]. rewrite iter_shr_m by lia. rewrite Hr. f_equal. f_equal. lia.
  - split; [lia |]. rewrite Hr. replace (e1 - e) with 0 by lia.
    now rewrite Z.pow_0_r, Z.div_1_r.
Qed.

(** Rounding to nearest keeps the mantissa or adds one. *)
Lemma round_nearest_even_bounds (m : Z) (l : location) :
  m <= round_nearest_even m l <= m + 1.
Proof. destruct l as [| []]; cbn; try lia. destruct (Z.even m); lia. Qed.

Lemma div_pow2_pos (m k : Z) : 0 < m -> 0 <= k < Zdigits2 m -> 0 < m / 2 ^ k.
Proof.
  intros Hm Hk. pose proof (Zdigits2_bounds m Hm) as [Hlo _].
  apply Z.div_str_pos. split; [lia |].
  eapply Z.le_trans; [| exact Hlo]. apply Z.pow_le_mono_r; lia.
Qed.

Lemma Zdigits2_div_pow2 (m k : Z) :
  0 < m -> 0 <= k < Zdigits2 m -> Zdigits2 (m / 2 ^ k) = Zdigits2 m - k.
Proof.
  intros Hm Hk. pose proof (div_pow2_pos m k Hm Hk) as Hq.
  rewrite !Zdigits2_log2 by lia.
  rewrite <- Z.shiftr_div_pow2 by lia. rewrite Z.log2_shiftr by lia.
  rewrite Zdigits2_log2 in Hk by lia. lia.
Qed.

(** [binary_round_aux] on a positive mantissa that neither underflows to
    zero nor overflows *)
Lemma binary_round_aux_finite (sx : bool) (mx ex : Z) (lx : location) :
  0 < mx ->
  -1074 < Zdigits2 mx + ex ->
  ex <= 971 ->
  Zdigits2 mx + ex <= 1023 ->
  exists m e,
    binary_round_aux prec emax sx mx ex lx = S754_finite sx m e /\
    ex <= e <= Z.max ex (Z.max (Zdigits2 mx + ex - 52) (-1074)).
Proof.
  intros Hm Hlo Hex Hhi. unfold binary_round_aux.
  pose proof (shr_fexp_spec mx ex lx ltac:(lia)) as [E1 M1].
  destruct (shr_fexp prec emax mx ex lx) as [mrs' e'] eqn:S1. cbn [fst snd] in E1, M1.
  rewrite <- E1 in M1.
  pose proof (Zdigits2_pos mx Hm) as Dpos.
  assert (K1 : 0 <= e' - ex < Zdigits2 mx) by (unfold fexp64 in E1; lia).
  pose proof (div_pow2_pos mx _ Hm K1) as Q1.
  pose proof (Zdigits2_div_pow2 mx _ Hm K1) as D1.
  rewrite <- M1 in Q1, D1.
  set (m1 := round_nearest_even (shr_m mrs') (loc_of_shr_record mrs')).
  pose proof (round_nearest_even_bounds (shr_m mrs') (loc_of_shr_record mrs')) as R. fold m1 in R.
  assert (Dm1lo : Zdigits2 (shr_m mrs') <= Zdigits2 m1) by (apply Zdigits2_le; lia).
  assert (Dm1hi : Zdigits2 m1 <= Zdigits2 (shr_m mrs') + 1).
  { apply Zdigits2_lt_pow2; [lia |]. split; [lia |].
    pose proof (Zdigits2_bounds (shr_m mrs') Q1) as [_ Hu].
    rewrite Z.pow_add_r, Z.pow_1_r by lia. lia. }
  pose proof (shr_fexp_spec m1 e' loc_Exact ltac:(lia)) as [E2 M2].
  destruct (shr_fexp prec emax m1 e' loc_Exact) as [mrs'' e''] eqn:S2. cbn [fst snd] in E2, M2.
  rewrite <- E2 in M2.
  assert (K2 : 0 <= e'' - e' < Zdigits2 m1) by (unfold fexp64 in E2; lia).
  pose proof (div_pow2_pos m1 _ ltac:(lia) K2) as Q2. rewrite <- M2 in Q2.
  destruct (shr_m mrs'') as [| m2 | m2]; try lia.
  assert (Hle : (e'' <=? emax - prec) = true).
  { apply Z.leb_le. change (emax - prec) with 971. unfold fexp64 in *. lia. }
  rewrite Hle. eexists _, _. split; [reflexivity |]. unfold fexp64 in *. lia.
Qed.

Lemma digits2_pos_iter_xO (p d : positive) :
  Zpos (digits2_pos (Pos.iter xO p d)) = Zpos (digits2_pos p) + Zpos d.
Proof.
  induction d as [| d IH] using Pos.peano_ind.
  - cbn. lia.
  - rewrite Pos.iter_succ. cbn [digits2_pos]. lia.
Qed.

(** The float of a positive 63-bit integer is a positive finite number,
    at least 1. *)
Lemma of_uint63_finite (k : Uint63.int) :
  0 < Uint63.to_Z k ->
  exists m e,
    Prim2SF (of_uint63 k) = S754_finite false m e /\ -52 <= e <= 11.
Proof.
  intros Hk. rewrite FloatAxioms.of_uint63_spec.
  pose proof (Uint63.to_Z_bounded k) as [_ Hb].
  change Uint63.wB with (2 ^ 63) in Hb.
  destruct (Uint63.to_Z k) as [| p | p]; try lia.
  assert (Hd : 1 <= Zpos (digits2_pos p) <= 63).
  { pose proof (Zdigits2_lt_pow2 (Zpos p) 63 ltac:(lia) ltac:(lia)).
    pose proof (Zdigits2_pos (Zpos p) ltac:(lia)). cbn [Zdigits2] in *. lia. }
  cbn [binary_normalize]. unfold binary_round, shl_align.
  rewrite fexp_unfold. unfold fexp64.
  destruct (Z.max (Zpos (digits2_pos p) + 0 - 53) (-1074) - 0) as [| d | d] eqn:Ed.
  - destruct (binary_round_aux_finite false (Zpos p) 0 loc_Exact)
      as (m & e & -> & He); cbn [Zdigits2]; try lia.
    exists m, e. cbn [Zdigits2] in He. split; [reflexivity | lia].
  - destruct (binary_round_aux_finite false (Zpos p) 0 loc_Exact)
      as (m & e & -> & He); cbn [Zdigits2]; try lia.
    exists m, e. cbn [Zdigits2] in He. split; [reflexivity | lia].
  - pose proof (digits2_pos_iter_xO p d) as Di.
    assert (Nd : Zneg d = - Zpos d) by reflexivity.
    destruct (binary_round_aux_finite false (Zpos (Pos.iter xO p d))
                (Z.max (Zpos (digits2_pos p) + 0 - 53) (-1074)) loc_Exact)
      as (m & e & -> & He); cbn [Zdigits2]; try lia.
    exists m, e. cbn [Zdigits2] in He. split; [reflexivity | lia].
Qed.

Lemma one_SF : Prim2SF 1 = S754_finite false 4503599627370496 (-52).
Proof. reflexivity. Qed.

(** The quotient of 1 by a positive finite number that is at least 1 is a
    positive finite number. *)
Lemma one_div_finite (d : float) (m : positive) (e : Z) :
  Prim2SF d = S754_finite false m e ->
  -52 <= e <= 11 ->
  exists m' e', Prim2SF (1 / d) = S754_finite false m' e'.
Proof.
  intros Hd He. pose proof (Prim2SF_valid d) as V. rewrite Hd in V.
  cbn [SpecFloat.valid_binary] in V. unfold bounded, canonical_mantissa in V.
  apply andb_prop in V as [C _]. apply Z.eqb_eq in C.
  rewrite fexp_unfold in C. unfold fexp64 in C.
  assert (D2 : Zpos (digits2_pos m) = 53) by lia.
  pose proof (Zdigits2_bounds (Zpos m) ltac:(lia)) as Bm.
  cbn [Zdigits2] in Bm. rewrite D2 in Bm.
  rewrite FloatAxioms.div_spec, one_SF, Hd. unfold SF64div, SFdiv, SFdiv_core_binary.
  cbn [Zdigits2]. rewrite D2. change (Zpos (digits2_pos 4503599627370496)) with 53.
  rewrite fexp_unfold. unfold fexp64.
  replace (Z.min (Z.max (53 + -52 - (53 + e) - 53) (-1074)) (-52 - e))
    with (-105 - e) by lia.
  replace (-52 - e - (-105 - e)) with 53 by lia.
  change (Z.shiftl 4503599627370496 53) with (2 ^ 105).
  pose proof (Z.div_eucl_eq (2 ^ 105) (Zpos m) ltac:(lia)) as Q.
  pose proof (Z.mod_pos_bound (2 ^ 105) (Zpos m) ltac:(lia)) as R.
  unfold Z.modulo in R.
  destruct (Z.div_eucl (2 ^ 105) (Zpos m)) as [q r].
  assert (Hq : 2 ^ 52 <= q <= 2 ^ 53).
  { change (2 ^ (53 - 1)) with (2 ^ 52) in Bm.
    change (2 ^ 105) with (2 ^ 52 * 2 ^ 53) in Q.
    split; nia. }
  assert (Dq : 53 <= Zdigits2 q <= 54).
  { split.
    - change 53 with (Zdigits2 (2 ^ 52)). apply Zdigits2_le. lia.
    - apply Zdigits2_lt_pow2; [lia |]. 
      change (2 ^ 54) with (2 * 2 ^ 53). lia. }
  match goal with
  | |- context [binary_round_aux _ _ ?s q ?ex ?l] =>
      destruct (binary_round_aux_finite s q ex l) as (m' & e' & E & _); try lia
  end.
  exists m', e'. exact E.
Qed.

End BinaryRounding.

(** *** The samples *)

(** The float of a sample count from 1 up to [2 ^ 63 - 1] is a positive
    finite number. *)
Lemma float_of_nat_finite (n : nat) :
  1 <= n -> (Z.of_nat n < 2 ^ 63)%Z ->
  exists m e,
    Prim2SF (float_of_nat n) = S754_finite false m e /\ (-52 <= e <= 11)%Z.
Proof.
  intros Hn Hb. apply of_uint63_finite.
  rewrite Uint63.of_Z_spec. change Uint63.wB with (2 ^ 63)%Z.
  rewrite Z.mod_small; lia.
Qed.

(** The step [1 / (n - 1)] of [linspace(-0.5, 0.5, n)] is a positive
    finite number: it is not zero, and it is not a NaN. *)
Lemma step_finite (n : nat) :
  1 <= n -> (Z.of_nat n < 2 ^ 63)%Z ->
  exists m e, Prim2SF (1 / float_of_nat n) = S754_finite false m e.
Proof.
  intros Hn Hb. destruct (float_of_nat_finite n Hn Hb) as (m & e & E & He).
  exact (one_div_finite _ m e E He).
Qed.

Lemma step_not_zero (n : nat) :
  1 <= n -> (Z.of_nat n < 2 ^ 63)%Z ->
  (1 / float_of_nat n =? 0)%float = false.
Proof.
  intros Hn Hb. destruct (step_finite n Hn Hb) as (m & e & E).
  rewrite FloatAxioms.eqb_spec, E. reflexivity.
Qed.

Lemma step_positive (n : nat) :
  1 <= n -> (Z.of_nat n < 2 ^ 63)%Z ->
  (0 <? 1 / float_of_nat n)%float = true.
Proof.
  intros Hn Hb. destruct (step_finite n Hn Hb) as (m & e & E).
  rewrite FloatAxioms.ltb_spec, E. reflexivity.
Qed.

(** Zero times a positive finite number is zero. *)
Lemma zero_mul_finite (x : float) (m : positive) (e : Z) :
  Prim2SF x = S754_finite false m e -> (0 * x)%float = 0%float.
Proof.
  intros E. apply Prim2SF_inj. rewrite FloatAxioms.mul_spec, E. reflexivity.
Qed.

(** The samples before the last one: the index times the step, shifted by
    [start]. *)
Lemma linspace_interior (n i : nat) :
  i + 1 < n -> (Z.of_nat n <= 2 ^ 63)%Z ->
  linspace (-0.5) 0.5 n !! i =
    Some (float_of_nat i * (1 / float_of_nat (n - 1)) + -0.5)%float.
Proof.
  intros Hi Hb. unfold linspace.
  destruct (Nat.ltb_spec 1 n) as [_ | ?]; [| lia].
  change (0.5 - -0.5)%float with 1%float.
  rewrite step_not_zero by lia.
  rewrite list_lookup_insert_ne by lia.
  rewrite !list_lookup_fmap, lookup_seq_lt by lia. reflexivity.
Qed.

Lemma linspace_first (n : nat) :
  1 <= n -> (Z.of_nat n <= 2 ^ 63)%Z ->
  linspace (-0.5) 0.5 n !! 0 = Some (-0.5)%float.
Proof.
  intros Hn Hb. destruct (decide (n = 1)) as [-> | N1]; [reflexivity |].
  rewrite linspace_interior by lia.
  destruct (step_finite (n - 1) ltac:(lia) ltac:(lia)) as (m & e & E).
  change (float_of_nat 0) with 0%float.
  now rewrite (zero_mul_finite _ m e E).
Qed.

(** Every sample of [linspace(-0.5, 0.5, n)] in closed form. *)
Lemma linspace_sample (n i : nat) :
  i < n -> (Z.of_nat n <= 2 ^ 63)%Z ->
  linspace (-0.5) 0.5 n !! i = Some (grid_sample n i).
Proof.
  intros Hi Hb. unfold grid_sample.
  destruct (Nat.eqb_spec i 0) as [-> | Ni]; [apply linspace_first; lia |].
  destruct (Nat.eqb_spec (i + 1) n) as [<- | Nl].
  - pose proof (linspace_last (-0.5) 0.5 (i + 1) ltac:(lia)) as L.
    now replace (i + 1 - 1) with i in L by lia.
  - apply linspace_interior; lia.
Qed.

(** 0.5 is not -0.5. *)
Lemma half_not_minus_half : 0.5%float <> (-0.5)%float.
Proof.
  intros E. apply (f_equal (fun x => (0 <? x)%float)) in E.
  vm_compute in E. discriminate E.
Qed.

Lemma bind_singleton {A B : Type} (g : A -> B) (l : list A) :
  (x ← l; [g x]) = g <$> l.
Proof. induction l as [| a l IH]; [reflexivity |]. cbn. now rewrite IH. Qed.

(** The comprehension [[g x y for y in ys for x in xs]] has one row of
    [length xs] entries per element of [ys]. *)
Lemma comprehension_length {A B C : Type} (g : A -> B -> C) (xs : list A)
    (ys : list B) :
  length (y ← ys; x ← xs; [g x y]) = length xs * length ys.
Proof.
  induction ys as [| b ys IH]; cbn; [lia |].
  rewrite length_app, IH, bind_singleton, length_fmap. lia.
Qed.

Lemma comprehension_lookup {A B C : Type} (g : A -> B -> C) (xs : list A)
    (ys : list B) (i j : nat) (x : A) (y : B) :
  xs !! i = Some x -> ys !! j = Some y ->
  (y ← ys; x ← xs; [g x y]) !! (j * length xs + i) = Some (g x y).
Proof.
  intros Hx. revert j. induction ys as [| b ys IH]; intros j Hy; [done |].
  pose proof (lookup_lt_Some _ _ _ Hx) as Hi.
  cbn [mbind list_bind]. rewrite bind_singleton.
  destruct j as [| j]; cbn in Hy.
  - injection Hy as ->. rewrite lookup_app_l by (rewrite length_fmap; lia).
    cbn. now rewrite list_lookup_fmap, Hx.
  - rewrite lookup_app_r by (rewrite length_fmap; lia).
    rewrite length_fmap.
    replace (S j * length xs + i - length xs) with (j * length xs + i) by lia.
    now apply IH.
Qed.

(** C8.  [KSpaceRectangularGrid(x_steps, y_steps)] stores
    [x_steps * y_steps] points; the point at position
    [j * x_steps + i] is [(x_i, y_j, 0.0)], where [x_i] and [y_j] are the
    samples number [i] and [j] that [linspace(-0.5, 0.5, x_steps)] and
    [linspace(-0.5, 0.5, y_steps)] return, so [y] varies slowest.
    [linspace(-0.5, 0.5, n)] returns [n] samples.  For every [n] from 1 to
    [2 ^ 63] the first one is -0.5; the last one is 0.5 when [n] is at
    least 2; and each sample [i] in between is the binary64 value of
    [i * (1 / (n - 1)) + -0.5], the index times a constant positive step,
    shifted by -0.5.  A single step gives the single sample -0.5, so 0.5
    is reached only from two steps on.  In closed form the point at
    position [j * x_steps + i] is
    [(grid_sample x_steps i, grid_sample y_steps j, 0.0)].
    [k_interpolation] is 0, and [x_steps] and [y_steps] are kept as extra
    attributes.  With [x_steps = 3] and [y_steps = 2] the six points have
    [x = -0.5, 0, 0.5] in each row and [y = -0.5] in the first row, [0.5]
    in the second. *)
Theorem rectangular_grid_preset `{Defaults} (x_steps y_steps : nat)
    (w : world) (ls : list string) :
  heap w !! point_labels_default = Some ls ->
  exists self w',
    KSpaceRectangularGrid_init x_steps y_steps w = (Ok self, w') /\
    length (points self) = x_steps * y_steps /\
    (forall i j, i < x_steps -> j < y_steps ->
       exists x y,
         linspace (-0.5) 0.5 x_steps !! i = Some x /\
         linspace (-0.5) 0.5 y_steps !! j = Some y /\
         points self !! (j * x_steps + i) =
           Some (PTuple [PFloat x; PFloat y; PFloat 0])) /\
    (forall n, length (linspace (-0.5) 0.5 n) = n) /\
    (forall n, 2 <= n -> linspace (-0.5) 0.5 n !! (n - 1) = Some 0.5%float) /\
    (forall n, 1 <= n -> (Z.of_nat n <= 2 ^ 63)%Z ->
       linspace (-0.5) 0.5 n !! 0 = Some (-0.5)%float) /\
    (forall n i, i + 1 < n -> (Z.of_nat n <= 2 ^ 63)%Z ->
       linspace (-0.5) 0.5 n !! i =
         Some (float_of_nat i * (1 / float_of_nat (n - 1)) + -0.5)%float /\
       (0 <? 1 / float_of_nat (n - 1))%float = true) /\
    linspace (-0.5) 0.5 1 = [(-0.5)%float] /\
    linspace (-0.5) 0.5 5 =
      [(-0.5)%float; (-0.25)%float; 0%float; 0.25%float; 0.5%float] /\
    ((Z.of_nat x_steps <= 2 ^ 63)%Z -> (Z.of_nat y_steps <= 2 ^ 63)%Z ->
     forall i j, i < x_steps -> j < y_steps ->
       points self !! (j * x_steps + i) =
         Some (PTuple [PFloat (grid_sample x_steps i);
                       PFloat (grid_sample y_steps j); PFloat 0])) /\
    k_interpolation self = 0%Z /\
    use_uniform_interpolation self = false /\
    extra self !! "x_steps" = Some (PInt (Z.of_nat x_steps)) /\
    extra self !! "y_steps" = Some (PInt (Z.of_nat y_steps)) /\
    (x_steps = 3 -> y_steps = 2 ->
     points self =
       [PTuple [PFloat (-0.5); PFloat (-0.5); PFloat 0];
        PTuple [PFloat 0; PFloat (-0.5); PFloat 0];
        PTuple [PFloat 0.5; PFloat (-0.5); PFloat 0];
        PTuple [PFloat (-0.5); PFloat 0.5; PFloat 0];
        PTuple [PFloat 0; PFloat 0.5; PFloat 0];
        PTuple [PFloat 0.5; PFloat 0.5; PFloat 0]]).
Proof.
  intros E. unfold KSpaceRectangularGrid_init.
  eexists _, _. split; [apply (KSpace_init_run _ _ _ _ _ _ _ E) |].
  unfold points. cbn [points_list k_interpolation use_uniform_interpolation extra].
  set (xs := linspace (-0.5) 0.5 x_steps).
  set (ys := linspace (-0.5) 0.5 y_steps).
  assert (Lx : length xs = x_steps) by apply linspace_length.
  assert (Ly : length ys = y_steps) by apply linspace_length.
  assert (P : forall i j x y, xs !! i = Some x -> ys !! j = Some y ->
            (spec_normalize <$>
               (y ← ys; x ← xs; [PTuple [PFloat x; PFloat y; PFloat 0]]))
              !! (j * x_steps + i) =
            Some (PTuple [PFloat x; PFloat y; PFloat 0])).
  { intros i j x y Hx Hy. rewrite list_lookup_fmap, <- Lx.
    now rewrite (comprehension_lookup
                   (fun x y => PTuple [PFloat x; PFloat y; PFloat 0])
                   xs ys i j x y Hx Hy). }
  split; [| split].
  - now rewrite length_fmap, comprehension_length, Lx, Ly.
  - intros i j Hi Hj.
    destruct (lookup_lt_is_Some_2 xs i ltac:(lia)) as [x Hx].
    destruct (lookup_lt_is_Some_2 ys j ltac:(lia)) as [y Hy].
    exists x, y. do 2 (split; [assumption |]). now apply P.
  - split; [apply linspace_length |].
    split; [apply linspace_last |].
    split; [apply linspace_first |].
    split.
    { intros n i Hi Hb.
      split; [now apply linspace_interior | apply step_positive; lia]. }
    split; [reflexivity |].
    split; [vm_compute; reflexivity |].
    split.
    { intros Bx By i j Hi Hj. apply P; now apply linspace_sample. }
    do 2 (split; [reflexivity |]).
    split; [apply lookup_insert_eq |].
    split; [now rewrite lookup_insert_ne, lookup_insert_eq |].
    intros -> ->. subst xs ys. vm_compute. reflexivity.
Qed.

(** The grid of three by two samples. *)
Lemma rectangular_grid_preset_witness :
  heap initial_world !! point_labels_default = Some [] /\
  exists self w',
    @KSpaceRectangularGrid_init mpb_new 3 2 initial_world = (Ok self, w') /\
    points self =
      [PTuple [PFloat (-0.5); PFloat (-0.5); PFloat 0];
       PTuple [PFloat 0; PFloat (-0.5); PFloat 0];
       PTuple [PFloat 0.5; PFloat (-0.5); PFloat 0];
       PTuple [PFloat (-0.5); PFloat 0.5; PFloat 0];
       PTuple [PFloat 0; PFloat 0.5; PFloat 0];
       PTuple [PFloat 0.5; PFloat 0.5; PFloat 0]] /\
    extra self !! "x_steps" = Some (PInt 3) /\
    extra self !! "y_steps" = Some (PInt 2).
Proof.
  split; [reflexivity |].
  destruct (@rectangular_grid_preset mpb_new 3 2 initial_world [] eq_refl)
    as (self & w' & E & _ & _ & _ & _ & _ & _ & _ & _ & _ & _ & _ & X & Y & P).
  exists self, w'. split; [exact E |].
  split; [exact (P eq_refl eq_refl) |]. split; [exact X | exact Y].
Defined.

(** With one step in each direction the grid is the single point
    (-0.5, -0.5, 0.0): the only sample is -0.5, and 0.5 is not among the
    samples, so they do not range from -0.5 to 0.5 inclusive. *)
Lemma rectangular_grid_preset_counterexample :
  exists self w',
    @KSpaceRectangularGrid_init mpb_new 1 1 initial_world = (Ok self, w') /\
    points self = [PTuple [PFloat (-0.5); PFloat (-0.5); PFloat 0]] /\
    linspace (-0.5) 0.5 1 = [(-0.5)%float] /\
    ~ In 0.5%float (linspace (-0.5) 0.5 1) /\
    ~ In (PTuple [PFloat 0.5; PFloat 0.5; PFloat 0]) (points self).
Proof.
  eexists _, _. unfold KSpaceRectangularGrid_init.
  split; [apply (KSpace_init_run _ _ _ point_labels_default _ initial_world []
                   eq_refl) |].
  split; [reflexivity |]. split; [reflexivity |]. split.
  - intros [M | []]. symmetry in M. now apply half_not_minus_half.
  - intros [M | []].
    apply (f_equal (fun v => match v with
                             | PTuple (PFloat x :: _) => (0 <? x)%float
                             | _ => false
                             end)) in M.
    vm_compute in M. discriminate M.
Qed.

(** * Further properties of the constructor and the methods *)

(** ** What a construction stores *)

Lemma stored_labels_lookup (h : list (list string)) (lbl : loc)
    (x y : list string) :
  (<[lbl := x]> h ++ [y]) !! length h = Some y.
Proof.
  rewrite lookup_app_r by (now rewrite length_insert).
  now rewrite length_insert, Nat.sub_diag.
Qed.

Lemma caller_labels_lookup (h : list (list string)) (lbl : loc)
    (x y : list string) :
  lbl < length h -> (<[lbl := x]> h ++ [y]) !! lbl = Some x.
Proof.
  intros Hlt. rewrite lookup_app_l by (now rewrite length_insert).
  now apply list_lookup_insert_eq.
Qed.

(** The stored list, by the length of the argument and the number of
    points. *)
Lemma stored_labels_cases (ls : list string) (n : nat) :
  (length ls = 0 -> take n (padded ls n) = []) /\
  (0 < length ls < n ->
   take n (padded ls n) = ls ++ replicate (n - length ls) "") /\
  (n <= length ls -> take n (padded ls n) = take n ls) /\
  (length ls = n -> take n (padded ls n) = ls).
Proof.
  unfold padded. repeat split; intros Hc.
  - destruct ls; [| discriminate]. cbn. apply take_nil.
  - destruct (Nat.eqb_spec (length ls) 0); [lia |].
    destruct (Nat.ltb_spec (length ls) n); [| lia].
    cbn. apply take_ge. rewrite length_app, length_replicate. lia.
  - destruct (Nat.ltb_spec (length ls) n); [lia |]. now rewrite andb_false_r.
  - destruct (Nat.ltb_spec (length ls) n); [lia |]. rewrite andb_false_r.
    apply take_ge. lia.
Qed.

Lemma stored_labels_length (ls : list string) (n : nat) :
  length (take n (padded ls n)) =
  if (length ls =? 0) || (n =? 0) then 0 else n.
Proof.
  unfold padded.
  destruct (Nat.eqb_spec (length ls) 0) as [E | E];
    destruct (Nat.eqb_spec n 0) as [N | N];
    destruct (Nat.ltb_spec (length ls) n) as [L | L]; cbn [negb andb orb];
    rewrite length_take, ?length_app, ?length_replicate; lia.
Qed.

Lemma spec_normalize_idem (item : pyval) :
  spec_normalize (spec_normalize item) = spec_normalize item.
Proof.
  destruct item as [| b | z | f | s | l | l]; try reflexivity;
    now destruct l as [| x [| y [| z [| t l]]]].
Qed.

Lemma no_truncation_after_normalize (pts : list pyval) :
  truncation_warnings (spec_normalize <$> pts) = [].
Proof.
  unfold truncation_warnings.
  induction pts as [| item pts IH]; [reflexivity |].
  cbn [fmap list_fmap mbind list_bind]. fold (spec_normalize <$> pts).
  rewrite IH.
  destruct item as [| b | z | f | s | l | l]; try reflexivity;
    now destruct l as [| x [| y [| z [| t l]]]].
Qed.

(** X1.  On a freshly constructed path [has_labels()] returns the integer
    0 when the label argument was empty or there is no point, and [True]
    otherwise: it never returns [False] there, and it is true exactly when
    a non-empty label list was passed for at least one point. *)
Theorem has_labels_of_constructed `{Defaults} (pts : list pyval) (ki : Z)
    (uu : bool) (lbl : loc) (kw : gmap string pyval) (w : world)
    (ls : list string) :
  heap w !! lbl = Some ls ->
  exists self w',
    KSpace_init pts ki uu lbl kw w = (Ok self, w') /\
    has_labels self w' =
      (Ok (if (length ls =? 0) || (length pts =? 0) then PInt 0 else PBool true),
       w').
Proof.
  intros E. eexists _, _. split; [apply (KSpace_init_run _ _ _ _ _ _ _ E) |].
  erewrite has_labels_run by (cbn [heap point_labels]; apply stored_labels_lookup).
  unfold points. cbn [points_list].
  rewrite stored_labels_length, length_fmap.
  destruct ((length ls =? 0) || (length pts =? 0)) eqn:C; [reflexivity |].
  apply orb_false_iff in C as [_ C]. apply Nat.eqb_neq in C.
  destruct (length pts) as [| n]; [congruence |].
  cbn [Nat.eqb]. now rewrite bool_decide_eq_true_2.
Qed.

Lemma has_labels_of_constructed_witness :
  heap (World [[]; ["Gamma"]] []) !! 1 = Some ["Gamma"] /\
  exists self w',
    @KSpace_init mpb_new [PInt 0; PInt 1] 0 false 1 ∅
      (World [[]; ["Gamma"]] []) = (Ok self, w') /\
    has_labels self w' = (Ok (PBool true), w').
Proof.
  split; [reflexivity |].
  destruct (@has_labels_of_constructed mpb_new [PInt 0; PInt 1] 0 false 1 ∅
              (World [[]; ["Gamma"]] []) ["Gamma"] eq_refl)
    as (self & w' & E & L).
  exists self, w'. split; [exact E | exact L].
Defined.

(** X2.  [labels()] of a freshly constructed path returns a new list that
    holds the labels as they were passed when there is one per point, the
    labels followed by empty strings when there were fewer (and at least
    one), the first labels when there were more, and nothing when none was
    passed. *)
Theorem labels_round_trip `{Defaults} (pts : list pyval) (ki : Z) (uu : bool)
    (lbl : loc) (kw : gmap string pyval) (w : world) (ls : list string) :
  heap w !! lbl = Some ls ->
  exists self w' l w'' returned,
    KSpace_init pts ki uu lbl kw w = (Ok self, w') /\
    labels self w' = (Ok l, w'') /\
    heap w'' !! l = Some returned /\
    l <> lbl /\ l <> point_labels self /\
    (length ls = length pts -> returned = ls) /\
    (0 < length ls < length pts ->
     returned = ls ++ replicate (length pts - length ls) "") /\
    (length pts <= length ls -> returned = take (length pts) ls) /\
    (length ls = 0 -> returned = []).
Proof.
  intros E. pose proof (lookup_lt_Some _ _ _ E) as Hlt.
  set (n := length pts). set (stored := take n (padded ls n)).
  eexists _, _, _, _, stored.
  split; [apply (KSpace_init_run _ _ _ _ _ _ _ E) |].
  split.
  { erewrite labels_run
      by (cbn [heap point_labels]; apply stored_labels_lookup).
    reflexivity. }
  cbn [heap point_labels warnings]. unfold points. cbn [points_list].
  rewrite length_fmap. fold n stored.
  split.
  { rewrite lookup_app_r, Nat.sub_diag by lia. cbn. f_equal.
    pose proof (padded_length ls n) as PL.
    change (take n (padded ls n)) with stored in PL.
    destruct PL as [[Z0 _] | Hn].
    - rewrite Z0. cbn. symmetry. now apply nil_length_inv.
    - rewrite Hn. rewrite bool_decide_eq_true_2 by reflexivity.
      destruct (Nat.eqb_spec n 0) as [N0 | N0]; cbn; [| reflexivity].
      symmetry. apply nil_length_inv. lia. }
  rewrite !length_app, length_insert. cbn [length].
  split; [lia |]. split; [lia |].
  destruct (stored_labels_cases ls n) as (C0 & C1 & C2 & C3).
  repeat split; auto.
Qed.

Lemma labels_round_trip_witness :
  heap (World [[]; ["Gamma"; "X"]] []) !! 1 = Some ["Gamma"; "X"] /\
  exists self w' l w'',
    @KSpace_init mpb_new [PInt 0; PFloat 0.5] 0 false 1 ∅
      (World [[]; ["Gamma"; "X"]] []) = (Ok self, w') /\
    labels self w' = (Ok l, w'') /\
    heap w'' !! l = Some ["Gamma"; "X"].
Proof.
  split; [reflexivity |].
  destruct (@labels_round_trip mpb_new [PInt 0; PFloat 0.5] 0 false 1 ∅
              (World [[]; ["Gamma"; "X"]] []) ["Gamma"; "X"] eq_refl)
    as (self & w' & l & w'' & returned & E & L & R & _ & _ & Same & _).
  exists self, w', l, w''. split; [exact E |]. split; [exact L |].
  now rewrite R, (Same eq_refl).
Defined.

(** X3.  Normalisation is idempotent: a path constructed from the
    [points()] of a constructed path stores the same points, and its
    construction logs no truncation warning. *)
Theorem normalisation_idempotent `{Defaults} (pts : list pyval) (ki : Z)
    (uu : bool) (lbl : loc) (kw : gmap string pyval) (w : world)
    (ls : list string) (ki2 : Z) (uu2 : bool) (lbl2 : loc)
    (kw2 : gmap string pyval) (w2 : world) (ls2 : list string) :
  heap w !! lbl = Some ls ->
  heap w2 !! lbl2 = Some ls2 ->
  exists self w' self2 w2',
    KSpace_init pts ki uu lbl kw w = (Ok self, w') /\
    KSpace_init (points self) ki2 uu2 lbl2 kw2 w2 = (Ok self2, w2') /\
    points self2 = points self /\
    warnings w2' =
      warnings w2 ++ (if uu2 && negb newmpb then [fallback_warning] else []).
Proof.
  intros E E2. eexists _, _, _, _.
  split; [apply (KSpace_init_run _ _ _ _ _ _ _ E) |].
  split; [apply (KSpace_init_run _ _ _ _ _ _ _ E2) |].
  unfold points. cbn [points_list warnings].
  rewrite no_truncation_after_normalize. split; [| reflexivity].
  rewrite <- list_fmap_compose. apply list_fmap_ext.
  intros i item _. apply spec_normalize_idem.
Qed.

Lemma normalisation_idempotent_witness :
  heap initial_world !! point_labels_default = Some [] /\
  exists self w' self2 w2',
    @KSpace_init mpb_new
      [PFloat 0.5; PList [PInt 1; PInt 2; PInt 3; PInt 4]] 0 false
      point_labels_default ∅ initial_world = (Ok self, w') /\
    @KSpace_init mpb_new (points self) 0 false point_labels_default ∅
      initial_world = (Ok self2, w2') /\
    points self2 = points self /\
    warnings w2' = [].
Proof.
  split; [reflexivity |].
  destruct (@normalisation_idempotent mpb_new
              [PFloat 0.5; PList [PInt 1; PInt 2; PInt 3; PInt 4]] 0 false
              point_labels_default ∅ initial_world [] 0 false
              point_labels_default ∅ initial_world [] eq_refl eq_refl)
    as (self & w' & self2 & w2' & E & E2 & P & W).
  exists self, w', self2, w2'. repeat split; assumption.
Defined.

(** ** Edge cases *)

Lemma padded_no_points (ls : list string) : padded ls 0 = ls.
Proof. unfold padded. now rewrite andb_false_r. Qed.

(** X4.  A path constructed from no point at all: it stores no point and
    no label, whatever labels were passed, and leaves the passed list as it
    was; [has_labels()] returns 0, [count_interpolated()] returns
    [-k_interpolation] (not a count), and [__str__] renders a list without
    lines, bare when [k_interpolation] is 0 and wrapped otherwise. *)
Theorem empty_path `{Defaults} `{Runtime} (ki : Z) (uu : bool) (lbl : loc)
    (kw : gmap string pyval) (w : world) (ls : list string) :
  heap w !! lbl = Some ls ->
  exists self w',
    KSpace_init [] ki uu lbl kw w = (Ok self, w') /\
    points self = [] /\
    heap w' !! lbl = Some ls /\
    heap w' !! point_labels self = Some [] /\
    has_labels self w' = (Ok (PInt 0), w') /\
    count_interpolated self = (- ki)%Z /\
    KSpace_str self w' =
      (Ok (if (ki =? 0)%Z
           then "(list" +:+ nl +:+ ")"
           else "(" +:+
                (if use_uniform_interpolation self
                 then k_uniform_interpolation_function
                 else k_interpolation_function) +:+
                " " +:+ pretty ki +:+ " (list" +:+ nl +:+ "))"),
       w').
Proof.
  intros E. pose proof (lookup_lt_Some _ _ _ E) as Hlt.
  eexists _, _. split; [apply (KSpace_init_run _ _ _ _ _ _ _ E) |].
  cbn [length heap point_labels]. rewrite padded_no_points, take_0.
  assert (S : (<[lbl := ls]> (heap w) ++ [[]]) !! length (heap w) = Some [])
    by apply stored_labels_lookup.
  split; [reflexivity |].
  split; [now apply caller_labels_lookup |].
  split; [exact S |].
  split.
  { now erewrite has_labels_run by (cbn [heap point_labels]; exact S). }
  split; [unfold count_interpolated, points; cbn; lia |].
  erewrite KSpace_str_run;
    [| cbn [heap point_labels]; exact S | now left | constructor].
  cbn [k_interpolation points points_list fmap list_fmap spec_vectors
       zip_with join foldr].
  now destruct (ki =? 0)%Z.
Qed.

Lemma empty_path_witness :
  heap (World [[]; ["Gamma"]] []) !! 1 = Some ["Gamma"] /\
  exists self w',
    @KSpace_init mpb_new [] 3 false 1 ∅ (World [[]; ["Gamma"]] []) =
      (Ok self, w') /\
    count_interpolated self = (-3)%Z /\
    @KSpace_str mpb_new sample_runtime self w' =
      (Ok ("(interpolate 3 (list" +:+ nl +:+ "))"), w').
Proof.
  split; [reflexivity |].
  destruct (@empty_path mpb_new sample_runtime 3 false 1 ∅
              (World [[]; ["Gamma"]] []) ["Gamma"] eq_refl)
    as (self & w' & E & _ & _ & _ & _ & C & R).
  exists self, w'. split; [exact E |]. split; [exact C |].
  rewrite R. cbv in E. injection E as <- _. reflexivity.
Defined.

(** X5.  [count_interpolated()] of a constructed path is 1 for a single
    point whatever the interpolation count, the number of points when
    [k_interpolation] is 0, and at least the number of points when there
    is a point and [k_interpolation] is not negative. *)
Theorem count_interpolated_bounds `{Defaults} (pts : list pyval) (ki : Z)
    (uu : bool) (lbl : loc) (kw : gmap string pyval) (w : world)
    (ls : list string) :
  heap w !! lbl = Some ls ->
  exists self w',
    KSpace_init pts ki uu lbl kw w = (Ok self, w') /\
    (length pts = 1 -> count_interpolated self = 1%Z) /\
    (ki = 0%Z -> count_interpolated self = Z.of_nat (length pts)) /\
    (1 <= length pts -> (0 <= ki)%Z ->
     (Z.of_nat (length pts) <= count_interpolated self)%Z).
Proof.
  intros E. eexists _, _. split; [apply (KSpace_init_run _ _ _ _ _ _ _ E) |].
  unfold count_interpolated, points. cbn [points_list k_interpolation].
  rewrite length_fmap. repeat split.
  - intros ->. lia.
  - intros ->. lia.
  - intros Hn Hk. nia.
Qed.

Lemma count_interpolated_bounds_witness :
  heap initial_world !! point_labels_default = Some [] /\
  exists self w',
    @KSpace_init mpb_new [PInt 7] 25 false point_labels_default ∅
      initial_world = (Ok self, w') /\
    count_interpolated self = 1%Z.
Proof.
  split; [reflexivity |].
  destruct (@count_interpolated_bounds mpb_new [PInt 7] 25 false
              point_labels_default ∅ initial_world [] eq_refl)
    as (self & w' & E & One & _).
  exists self, w'. split; [exact E | exact (One eq_refl)].
Defined.

(** ** Rendering and the state of the object *)

(** X6.  [__str__] and [has_labels()] change neither the store nor the
    log, whatever the attributes of the object hold and also when they
    raise; so rendering an object again, or another object afterwards,
    gives what it would have given before. *)
Theorem rendering_reads_only `{Defaults} `{Runtime} (self : KSpace)
    (w : world) :
  snd (KSpace_str self w) = w /\
  snd (has_labels self w) = w /\
  KSpace_str self (snd (KSpace_str self w)) = KSpace_str self w /\
  forall other,
    KSpace_str other (snd (KSpace_str self w)) = KSpace_str other w /\
    has_labels other (snd (KSpace_str self w)) = has_labels other w.
Proof.
  pose proof (readonly_KSpace_str self w) as R.
  split; [exact R |]. split; [apply readonly_has_labels |].
  rewrite R. auto.
Qed.

Lemma bind_raise {A B : Type} (m : M A) (k : A -> M B) (w w' : world)
    (e : exn) :
  m w = (Raise e, w') -> (m ≫= k) w = (Raise e, w').
Proof. intros E. unfold mbind, M_bind. now rewrite E. Qed.

Section StrRaises.
Context `{Defaults} `{Runtime}.

Lemma commented_lines_short (comments : list string) (pts : list pyval)
    (i : nat) (w : world) :
  Forall (fun p => is_three_tuple p = true) pts ->
  i <= length comments < i + length pts ->
  commented_lines comments i pts w = (Raise IndexError, w).
Proof.
  intros Hpts. revert i.
  induction Hpts as [| p pts Hp _ IH]; intros i Hlen; cbn [length] in Hlen;
    [lia |].
  destruct p as [| | | | | [| x [| y [| z [| t l]]]] |]; try discriminate.
  cbn [commented_lines].
  rewrite (bind_run _ _ w w x) by reflexivity.
  rewrite (bind_run _ _ w w y) by reflexivity.
  rewrite (bind_run _ _ w w z) by reflexivity.
  destruct (comments !! i) as [c |] eqn:C.
  - assert (Ec : comment_at comments i w = (Ok c, w))
      by (unfold comment_at; now rewrite C).
    rewrite (bind_run _ _ _ _ _ Ec).
    apply lookup_lt_Some in C.
    apply bind_raise, IH. lia.
  - apply bind_raise. unfold comment_at. now rewrite C.
Qed.

Lemma plain_lines_raises (pre post : list pyval) (p : pyval)
    (l : list pyval) (w : world) :
  Forall (fun q => is_three_tuple q = true) pre ->
  sequence_items p = Some l ->
  length l <> 3 ->
  plain_lines (pre ++ p :: post) w = (Raise ValueError, w).
Proof.
  intros Hpre Hp Hl.
  induction Hpre as [| q pre Hq _ IH]; cbn [app plain_lines].
  - apply bind_raise.
    apply sequence_items_inv in Hp as [-> | ->];
      destruct l as [| x [| y [| z [| t l]]]]; try reflexivity;
      now cbn in Hl.
  - destruct q as [| | | | | [| x [| y [| z [| t l']]]] |]; try discriminate.
    rewrite (bind_run _ _ w w (x, y, z)) by reflexivity. cbn beta iota.
    now apply bind_raise.
Qed.

(** X7.  Outside the invariants of a constructed path [__str__] raises and
    changes nothing: with stored labels that are fewer than the points (all
    3-tuples) it raises [IndexError], and without labels it raises
    [ValueError] when, after 3-tuples only, a stored point is a tuple or
    list of another length than three. *)
Theorem str_raises_outside_invariants (self : KSpace) (w : world)
    (stored : list string) :
  heap w !! point_labels self = Some stored ->
  (0 < length stored < length (points self) ->
   Forall (fun p => is_three_tuple p = true) (points self) ->
   KSpace_str self w = (Raise IndexError, w)) /\
  (stored = [] ->
   forall pre p post l,
     points self = pre ++ p :: post ->
     Forall (fun q => is_three_tuple q = true) pre ->
     sequence_items p = Some l ->
     length l <> 3 ->
     KSpace_str self w = (Raise ValueError, w)).
Proof.
  intros E.
  assert (D : deref (point_labels self) w = (Ok stored, w))
    by (unfold deref; now rewrite E).
  split.
  - intros [Hpos Hshort] Hpts. unfold KSpace_str.
    rewrite (bind_run _ _ _ _ _ D).
    destruct (Nat.eqb_spec (length stored) 0) as [? | _]; [lia |].
    cbn [negb]. apply bind_raise, commented_lines_short; [exact Hpts |].
    rewrite length_fmap. lia.
  - intros -> pre p post l Hpts Hpre Hp Hl. unfold KSpace_str.
    rewrite (bind_run _ _ _ _ _ D). cbn [length Nat.eqb negb].
    apply bind_raise. rewrite Hpts. now apply (plain_lines_raises _ _ _ l).
Qed.

End StrRaises.

(** One label for two points, as after an assignment to the attribute. *)
Lemma str_raises_outside_invariants_witness :
  heap (World [[]; ["Gamma"]] []) !! 1 = Some ["Gamma"] /\
  @KSpace_str mpb_new sample_runtime
    {| k_interpolation := 0; use_uniform_interpolation := false;
       points_list := [PTuple [PInt 0; PInt 0; PInt 0];
                       PTuple [PInt 1; PInt 0; PInt 0]];
       point_labels := 1; extra := ∅ |}
    (World [[]; ["Gamma"]] []) =
  (Raise IndexError, World [[]; ["Gamma"]] []).
Proof.
  split; [reflexivity |].
  apply (@str_raises_outside_invariants mpb_new sample_runtime
           {| k_interpolation := 0; use_uniform_interpolation := false;
              points_list := [PTuple [PInt 0; PInt 0; PInt 0];
                              PTuple [PInt 1; PInt 0; PInt 0]];
              point_labels := 1; extra := ∅ |}
           (World [[]; ["Gamma"]] []) ["Gamma"] eq_refl).
  - cbn. lia.
  - repeat constructor.
Defined.

(** ** Sharing of the label list *)

(** X8.  The stored label list is reachable as the attribute
    [point_labels]; when it is passed to the construction of a longer
    path, it is extended in place like any argument, and the first object
    then holds more labels than points: its [has_labels()] becomes
    [False] and the invariant of its labels is lost. *)
Theorem aliased_labels_are_extended `{Defaults} (k : KSpace)
    (pts2 : list pyval) (ki2 : Z) (uu2 : bool) (kw2 : gmap string pyval)
    (w : world) (stored : list string) :
  heap w !! point_labels k = Some stored ->
  0 < length stored ->
  length stored = length (points k) ->
  length stored < length pts2 ->
  exists self2 w',
    labels_invariant k w = true /\
    KSpace_init pts2 ki2 uu2 (point_labels k) kw2 w = (Ok self2, w') /\
    heap w' !! point_labels k =
      Some (stored ++ replicate (length pts2 - length stored) "") /\
    has_labels k w' = (Ok (PBool false), w') /\
    labels_invariant k w' = false /\
    point_labels self2 <> point_labels k.
Proof.
  intros E Hpos Hk Hlong. pose proof (lookup_lt_Some _ _ _ E) as Hlt.
  eexists _, _. split.
  { apply labels_invariant_spec. eauto. }
  split; [apply (KSpace_init_run _ _ _ _ _ _ _ E) |].
  cbn [heap point_labels].
  destruct (stored_labels_cases stored (length pts2)) as (_ & Pad & _ & _).
  assert (P : padded stored (length pts2) =
              stored ++ replicate (length pts2 - length stored) "").
  { unfold padded.
    destruct (Nat.eqb_spec (length stored) 0); [lia |].
    destruct (Nat.ltb_spec (length stored) (length pts2)); [reflexivity | lia]. }
  rewrite P.
  set (longer := stored ++ replicate (length pts2 - length stored) "").
  assert (Ll : length longer = length pts2).
  { unfold longer. rewrite length_app, length_replicate. lia. }
  assert (L : (<[point_labels k := longer]> (heap w) ++
               [take (length pts2) longer]) !! point_labels k = Some longer)
    by now apply caller_labels_lookup.
  split; [exact L |]. split; [| split; [| lia]].
  - erewrite has_labels_run by (cbn [heap]; exact L).
    destruct (Nat.eqb_spec (length longer) 0); [lia |].
    rewrite bool_decide_eq_false_2 by lia. reflexivity.
  - unfold labels_invariant. cbn [heap]. rewrite L.
    apply orb_false_iff. split; apply Nat.eqb_neq; lia.
Qed.

Lemma aliased_labels_are_extended_witness :
  heap (World [[]; ["Gamma"]] []) !! 1 = Some ["Gamma"] /\
  exists self2 w',
    @KSpace_init mpb_new [PInt 0; PInt 1] 0 false 1 ∅
      (World [[]; ["Gamma"]] []) = (Ok self2, w') /\
    has_labels
      {| k_interpolation := 0; use_uniform_interpolation := false;
         points_list := [PTuple [PInt 0; PInt 0; PInt 0]];
         point_labels := 1; extra := ∅ |} w' = (Ok (PBool false), w').
Proof.
  split; [reflexivity |].
  destruct (@aliased_labels_are_extended mpb_new
              {| k_interpolation := 0; use_uniform_interpolation := false;
                 points_list := [PTuple [PInt 0; PInt 0; PInt 0]];
                 point_labels := 1; extra := ∅ |}
              [PInt 0; PInt 1] 0 false ∅ (World [[]; ["Gamma"]] [])
              ["Gamma"] eq_refl ltac:(cbn; lia) eq_refl ltac:(cbn; lia))
    as (self2 & w' & _ & E & _ & F & _).
  exists self2, w'. split; [exact E | exact F].
Defined.

(** ** The log and the store *)

Lemma truncation_warnings_length (pts : list pyval) :
  length (truncation_warnings pts) <= length pts.
Proof.
  unfold truncation_warnings.
  induction pts as [| item pts IH]; [reflexivity |].
  cbn [mbind list_bind length]. rewrite length_app.
  destruct (overlong item); cbn; lia.
Qed.

Lemma no_truncation_warnings (pts : list pyval) :
  Forall (fun item => overlong item = false) pts ->
  truncation_warnings pts = [].
Proof.
  unfold truncation_warnings.
  induction 1 as [| item pts Hi _ IH]; [reflexivity |].
  cbn [mbind list_bind]. now rewrite Hi, IH.
Qed.

(** X9.  A construction only appends: the log afterwards is the log before
    followed by at most one warning per raw point and one more, and by
    nothing at all when no item is a sequence of more than three elements
    and uniform interpolation is not requested or is available; the store
    afterwards has exactly one list object more, the stored labels. *)
Theorem construction_only_appends `{Defaults} (pts : list pyval) (ki : Z)
    (uu : bool) (lbl : loc) (kw : gmap string pyval) (w : world)
    (ls : list string) :
  heap w !! lbl = Some ls ->
  exists self w' logged,
    KSpace_init pts ki uu lbl kw w = (Ok self, w') /\
    warnings w' = warnings w ++ logged /\
    length logged <= length pts + 1 /\
    (Forall (fun item => overlong item = false) pts ->
     uu = false \/ newmpb = true ->
     logged = []) /\
    length (heap w') = S (length (heap w)) /\
    point_labels self = length (heap w).
Proof.
  intros E. eexists _, _, _.
  split; [apply (KSpace_init_run _ _ _ _ _ _ _ E) |].
  cbn [heap warnings point_labels]. split; [reflexivity |].
  split; [| split; [| split; [| reflexivity]]].
  - rewrite length_app. pose proof (truncation_warnings_length pts).
    destruct (uu && negb newmpb); cbn; lia.
  - intros Hshort Hflag. rewrite (no_truncation_warnings _ Hshort).
    destruct Hflag as [-> | ->]; [reflexivity |]. now rewrite andb_false_r.
  - rewrite length_app, length_insert. cbn. lia.
Qed.

Lemma construction_only_appends_witness :
  heap initial_world !! point_labels_default = Some [] /\
  exists self w',
    @KSpace_init mpb_new [PFloat 0.5; PTuple [PInt 0; PInt 1]] 4 true
      point_labels_default ∅ initial_world = (Ok self, w') /\
    warnings w' = [] /\
    length (heap w') = 2.
Proof.
  split; [reflexivity |].
  destruct (@construction_only_appends mpb_new
              [PFloat 0.5; PTuple [PInt 0; PInt 1]] 4 true
              point_labels_default ∅ initial_world [] eq_refl)
    as (self & w' & logged & E & W & _ & Quiet & L & _).
  exists self, w'. split; [exact E |]. split; [| exact L].
  rewrite W, Quiet; [reflexivity | repeat constructor | now right].
Defined.

(** ** The other presets *)

(** A construction from a new list of as many labels as points. *)
Lemma labelled_preset_run `{Defaults} (names : list string)
    (pts : list pyval) (ki : Z) (uu : bool) (w : world) :
  length names = length pts ->
  (alloc names ≫= fun point_labels => KSpace_init pts ki uu point_labels ∅) w =
  (Ok {| k_interpolation := ki;
         use_uniform_interpolation := if uu && negb newmpb then false else uu;
         points_list := spec_normalize <$> pts;
         point_labels := S (length (heap w));
         extra := ∅ |},
   World (heap w ++ [names; names])
     (warnings w ++ truncation_warnings pts ++
      if uu && negb newmpb then [fallback_warning] else [])).
Proof.
  intros Hn.
  assert (A : alloc names w =
              (Ok (length (heap w)), World (heap w ++ [names]) (warnings w)))
    by reflexivity.
  rewrite (bind_run _ _ _ _ _ A).
  assert (E : heap (World (heap w ++ [names]) (warnings w)) !! length (heap w) =
              Some names).
  { cbn [heap]. now rewrite lookup_app_r, Nat.sub_diag. }
  rewrite (KSpace_init_run _ _ _ _ _ _ _ E). cbn [heap warnings].
  destruct (stored_labels_cases names (length pts)) as (_ & _ & _ & Same).
  rewrite (Same Hn).
  assert (P : padded names (length pts) = names).
  { unfold padded. destruct (Nat.ltb_spec (length names) (length pts)); [lia |].
    now rewrite andb_false_r. }
  rewrite P, list_insert_id by (cbn [heap] in E; exact E).
  rewrite length_app, <- (assoc_L (++)). cbn [length app].
  now rewrite Nat.add_1_r.
Qed.

(** X10.  [KSpaceRectangular], for any interpolation count, flag and
    store: [points()] is [(0,0,0), (0.5,0,0), (0.5,0.5,0), (0,0,0)],
    [has_labels()] is [True], [labels()] returns a list holding
    [Gamma, X, M, Gamma], [count_interpolated()] is
    [3 * k_interpolation + 4], and no list object that existed before is
    changed, the labels being a new list at every call. *)
Theorem rectangular_preset `{Defaults} (ki : Z) (uu : bool) (w : world) :
  exists self w',
    KSpaceRectangular_init ki uu w = (Ok self, w') /\
    points self =
      [PTuple [PInt 0; PInt 0; PInt 0];
       PTuple [PFloat 0.5; PInt 0; PInt 0];
       PTuple [PFloat 0.5; PFloat 0.5; PInt 0];
       PTuple [PInt 0; PInt 0; PInt 0]] /\
    k_interpolation self = ki /\
    count_interpolated self = (3 * ki + 4)%Z /\
    has_labels self w' = (Ok (PBool true), w') /\
    (forall l x, heap w !! l = Some x -> heap w' !! l = Some x) /\
    heap w !! point_labels self = None /\
    exists l w'',
      labels self w' = (Ok l, w'') /\
      heap w'' !! l = Some ["Gamma"; "X"; "M"; "Gamma"].
Proof.
  unfold KSpaceRectangular_init.
  set (names := ["Gamma"; "X"; "M"; "Gamma"]).
  eexists _, _. split; [now apply labelled_preset_run |].
  cbn [heap point_labels k_interpolation].
  assert (S : (heap w ++ [names; names]) !! S (length (heap w)) = Some names).
  { rewrite lookup_app_r by lia.
    now replace (S (length (heap w)) - length (heap w)) with 1 by lia. }
  split; [reflexivity |]. split; [reflexivity |].
  split; [unfold count_interpolated, points; cbn; lia |].
  split.
  { now erewrite has_labels_run by (cbn [heap point_labels]; exact S). }
  split; [intros l x Hl; now apply lookup_app_l_Some |].
  split; [apply lookup_ge_None_2; lia |].
  eexists _, _. split.
  - now erewrite labels_run by (cbn [heap point_labels]; exact S).
  - cbn [heap]. now rewrite lookup_app_r, Nat.sub_diag.
Qed.

Lemma three_tuples_not_overlong (pts : list pyval) :
  Forall (fun p => is_three_tuple p = true) pts ->
  Forall (fun item => overlong item = false) pts.
Proof.
  intros Hp. eapply Forall_impl; [exact Hp |].
  intros [| | | | | [| x [| y [| z [| t l]]]] |]; cbn; congruence.
Qed.

(** X11.  [KSpaceRectangularGrid(x_steps, y_steps)], in a store whose
    shared default label list is empty: [count_interpolated()] is
    [x_steps * y_steps], also when that is 0; the path has no labels and
    the default list stays empty; nothing is logged; and the object has no
    extra attribute besides [x_steps] and [y_steps]. *)
Theorem grid_count_and_attributes `{Defaults} (x_steps y_steps : nat)
    (w : world) :
  heap w !! point_labels_default = Some [] ->
  exists self w',
    KSpaceRectangularGrid_init x_steps y_steps w = (Ok self, w') /\
    count_interpolated self = Z.of_nat (x_steps * y_steps) /\
    has_labels self w' = (Ok (PInt 0), w') /\
    heap w' !! point_labels_default = Some [] /\
    warnings w' = warnings w /\
    forall key,
      key <> "x_steps" -> key <> "y_steps" -> extra self !! key = None.
Proof.
  intros E. pose proof (lookup_lt_Some _ _ _ E) as Hlt.
  unfold KSpaceRectangularGrid_init.
  set (grid := y ← linspace (-0.5) 0.5 y_steps;
               x ← linspace (-0.5) 0.5 x_steps;
               [PTuple [PFloat x; PFloat y; PFloat 0]]).
  assert (Lg : length grid = x_steps * y_steps).
  { unfold grid. now rewrite comprehension_length, !linspace_length. }
  assert (Tg : Forall (fun p => is_three_tuple p = true) grid).
  { unfold grid. apply Forall_bind, Forall_true. intros y.
    apply Forall_bind, Forall_true. intros x. now repeat constructor. }
  eexists _, _. split; [apply (KSpace_init_run _ _ _ _ _ _ _ E) |].
  cbn [heap warnings point_labels extra].
  destruct (stored_labels_cases [] (length grid)) as (Empty & _).
  rewrite (Empty eq_refl).
  assert (P : padded [] (length grid) = []) by reflexivity. rewrite P.
  split; [| split; [| split; [| split]]].
  - unfold count_interpolated, points. cbn [points_list k_interpolation].
    rewrite length_fmap, Lg. lia.
  - now erewrite has_labels_run
      by (cbn [heap point_labels]; apply stored_labels_lookup).
  - now apply caller_labels_lookup.
  - rewrite (no_truncation_warnings _ (three_tuples_not_overlong _ Tg)).
    cbn. now rewrite app_nil_r.
  - intros key Hx Hy.
    now rewrite !lookup_insert_ne, lookup_empty by congruence.
Qed.

Lemma grid_count_and_attributes_witness :
  heap initial_world !! point_labels_default = Some [] /\
  exists self w',
    @KSpaceRectangularGrid_init mpb_new 5 4 initial_world = (Ok self, w') /\
    count_interpolated self = 20%Z /\
    extra self !! "z_steps" = None.
Proof.
  split; [reflexivity |].
  destruct (@grid_count_and_attributes mpb_new 5 4 initial_world eq_refl)
    as (self & w' & E & C & _ & _ & _ & X).
  exists self, w'. split; [exact E |]. split; [exact C |].
  now apply X.
Defined.
